(** * Sentiment dashboard: result pipeline and chart lifecycle

    A shallow embedding of the script block of
    [src/routes/+page.svelte]: the [analyze] submission handler, the
    keyword clean-up it applies to a response, the two reactive effects and
    [renderChart].

    Conventions.
    - A JavaScript string is the list of its UTF-16 code units; the regular
      expression of the source has no [u] flag, and [split] and [trim] also
      work code unit by code unit.
    - A document that [JSON.parse] returns is a value of [Json]; an object is
      the list of its own members in the order [Object.keys] enumerates
      them.  Every value of a parsed document is a fresh object, so no two
      members alias.
    - The two interfaces of the script are records; [shaped] gives the
      document of that shape.
    - The reactive variables of the component form the record [State];
      every assignment of the source is one write on it. *)

From Stdlib Require Import List Bool Arith NArith ZArith QArith String Ascii Lia.
From Stdlib Require Import DecimalString.
Import ListNotations.
Close Scope Q_scope.
Set Warnings "-register-all".

(* ================================================================== *)
(** ** JavaScript strings *)

Module Js.

Definition code_unit := N.
Definition jsstring := list code_unit.

(** Literals of the source, written as Rocq strings. *)
Definition js (s : string) : jsstring :=
  List.map N_of_ascii (list_ascii_of_string s).

Definition code_unit_eqb : code_unit -> code_unit -> bool := N.eqb.

Fixpoint eqb (s t : jsstring) : bool :=
  match s, t with
  | [], [] => true
  | c :: s', d :: t' => code_unit_eqb c d && eqb s' t'
  | _, _ => false
  end.

(** [ToBoolean] on a string: only the empty string is falsy. *)
Definition truthy (s : jsstring) : bool :=
  match s with
  | [] => false
  | _ :: _ => true
  end.

(** [a || b] on strings. *)
Definition or_else (a b : jsstring) : jsstring :=
  if truthy a then a else b.

(** [a || undefined]. *)
Definition or_undefined (a : option jsstring) : option jsstring :=
  match a with
  | Some s => if truthy s then Some s else None
  | None => None
  end.

(** Membership of a code unit in a character range [lo-hi] of a regular
    expression class. *)
Definition in_range (lo hi : string) (c : code_unit) : bool :=
  match js lo, js hi with
  | [l], [h] => (l <=? c)%N && (c <=? h)%N
  | _, _ => false
  end.

(** [s.replace(re, repl)] for a global regular expression [re] that
    matches single code units: every matching code unit is replaced. *)
Fixpoint replace_all (re : code_unit -> bool) (repl s : jsstring) : jsstring :=
  match s with
  | [] => []
  | c :: s' =>
      if re c then repl ++ replace_all re repl s'
      else c :: replace_all re repl s'
  end.

(** [s.split(sep)] for a separator of one code unit. *)
Fixpoint split (sep : code_unit) (s : jsstring) : list jsstring :=
  match s with
  | [] => [[]]
  | c :: s' =>
      if code_unit_eqb c sep then [] :: split sep s'
      else match split sep s' with
           | line :: lines => (c :: line) :: lines
           | [] => [[c]]
           end
  end.

(** The code units [String.prototype.trim] removes: ECMAScript
    [WhiteSpace] (TAB, VT, FF, SP, NBSP, ZWNBSP and the Unicode space
    separators) and [LineTerminator] (LF, CR, LS, PS). *)
Definition is_white_space (c : code_unit) : bool :=
  ((c =? 0x9) || (c =? 0xB) || (c =? 0xC) || (c =? 0x20) || (c =? 0xA0)
   || (c =? 0xFEFF) || (c =? 0x1680)
   || ((0x2000 <=? c) && (c <=? 0x200A))
   || (c =? 0x202F) || (c =? 0x205F) || (c =? 0x3000)
   || (c =? 0xA) || (c =? 0xD) || (c =? 0x2028) || (c =? 0x2029))%N.

Fixpoint trimStart (s : jsstring) : jsstring :=
  match s with
  | [] => []
  | c :: s' => if is_white_space c then trimStart s' else s
  end.

Definition trimEnd (s : jsstring) : jsstring :=
  rev (trimStart (rev s)).

Definition trim (s : jsstring) : jsstring :=
  trimEnd (trimStart s).

End Js.

Import Js.

(* ================================================================== *)
(** ** Data model (the two interfaces of the script) *)

(** A JSON number; the script only copies percentages around. *)
Definition number := Q.

(** An object used as a dictionary, in [Object.keys] order. *)
Definition Dict (V : Type) := list (jsstring * V).

Definition keys {V} (d : Dict V) : list jsstring := List.map fst d.
Definition values {V} (d : Dict V) : list V := List.map snd d.

(** [d[k]] on own properties. *)
Fixpoint get {V} (d : Dict V) (k : jsstring) : option V :=
  match d with
  | [] => None
  | (k', v) :: d' => if Js.eqb k' k then Some v else get d' k
  end.

Record SentimentData := {
  sentiment : Dict number;
  insight : jsstring;
  common_keywords : list jsstring
}.

Record AnalysisResult := {
  insights : Dict SentimentData
}.

(* ================================================================== *)
(** ** Keyword clean-up (lines 86-88) *)

(** The class [[^a-zA-Z]]. *)
Definition non_alphabetic (c : code_unit) : bool :=
  negb (in_range "a" "z" c || in_range "A" "Z" c).

(** [data.common_keywords.map(k => k.replace(/[^a-zA-Z]/g, '')).filter(k => k.length > 0)] *)
Definition normalize_keywords (kws : list jsstring) : list jsstring :=
  filter (fun keyword => 0 <? List.length keyword)
         (List.map (fun keyword => replace_all non_alphabetic [] keyword) kws).


(** *** The normalizer as the specification words it *)

Definition is_ascii_letter (c : code_unit) : bool :=
  (((65 <=? c) && (c <=? 90)) || ((97 <=? c) && (c <=? 122)))%N.

Definition strip_non_letters (k : jsstring) : jsstring :=
  filter is_ascii_letter k.

Fixpoint normalize_spec (kws : list jsstring) : list jsstring :=
  match kws with
  | [] => []
  | k :: rest =>
      match strip_non_letters k with
      | [] => normalize_spec rest
      | c :: k' => (c :: k') :: normalize_spec rest
      end
  end.

(* ================================================================== *)
(** ** Parsed documents *)

(** What [JSON.parse] can return, [null] apart: a value that may be [null]
    is an [option Json].  A number is the value of the double; a literal
    too large for a double parses to an infinity. *)
Inductive Json :=
| JBool (b : bool)
| JNumber (n : number)
| JInfinity (negative : bool)
| JString (s : jsstring)
| JArray (items : list (option Json))
| JObject (members : Dict (option Json)).

Coercion JString : jsstring >-> Json.

(** [ToBoolean] *)
Definition truthy_json (v : option Json) : bool :=
  match v with
  | None => false
  | Some (JBool b) => b
  | Some (JNumber n) => negb (Z.eqb (Qnum n) 0)
  | Some (JInfinity _) => true
  | Some (JString s) => Js.truthy s
  | Some (JArray _) => true
  | Some (JObject _) => true
  end.

(** A value that may also be [undefined], used as a condition: the value
    when it is truthy. *)
Definition if_truthy (v : option (option Json)) : option Json :=
  match v with
  | Some (Some j) => if truthy_json (Some j) then Some j else None
  | _ => None
  end.

(** [a || b] where [a] may be [undefined] or [null]. *)
Definition or_json (a : option (option Json)) (b : Json) : Json :=
  match if_truthy a with
  | Some j => j
  | None => b
  end.

(** [v.name] for a [v] that is not [null] and a [name] that is no built-in
    property of objects, arrays or strings: the own member of an object,
    [undefined] ([None]) on every other value. *)
Definition member (name : jsstring) (v : Json) : option (option Json) :=
  match v with
  | JObject members => get members name
  | _ => None
  end.

(** The name of the array index [i]. *)
Definition index_name (i : nat) : jsstring :=
  js (NilZero.string_of_uint (Nat.to_uint i)).

(** [Object.entries(v)] for a [v] that is not [null]: the members of an
    object, the items of an array under their indices, the code units of a
    string under theirs, nothing for a number or a boolean. *)
Definition entries (v : Json) : Dict (option Json) :=
  match v with
  | JObject members => members
  | JArray items =>
      combine (List.map index_name (seq 0 (List.length items))) items
  | JString s =>
      combine (List.map index_name (seq 0 (List.length s)))
              (List.map (fun c => Some (JString [c])) s)
  | _ => []
  end.

(** [o.name = v] on the members of an object: an own member keeps its
    place, a new one goes last. *)
Fixpoint set_member {V} (name : jsstring) (v : V) (d : Dict V) : Dict V :=
  match d with
  | [] => [(name, v)]
  | (k, x) :: d' =>
      if Js.eqb k name then (k, v) :: d' else (k, x) :: set_member name v d'
  end.

(** *** The documents of the declared shape *)

Definition shaped_sentiment (s : Dict number) : Json :=
  JObject (List.map (fun kv => (fst kv, Some (JNumber (snd kv)))) s).

Definition shaped_keywords (kws : list jsstring) : Json :=
  JArray (List.map (fun k => Some (JString k)) kws).

Definition shaped_data (d : SentimentData) : Json :=
  JObject [ (js "sentiment", Some (shaped_sentiment (sentiment d)));
            (js "insight", Some (JString (insight d)));
            (js "common_keywords", Some (shaped_keywords (common_keywords d))) ].

Definition shaped_insights (d : Dict SentimentData) : Json :=
  JObject (List.map (fun kv => (fst kv, Some (shaped_data (snd kv)))) d).

Definition shaped (r : AnalysisResult) : Json :=
  JObject [ (js "insights", Some (shaped_insights (insights r))) ].

(* ================================================================== *)
(** ** The chart library, as far as the script drives it *)

Inductive ChartType := pie | bar | doughnut | polarArea.

(** The literal behind each member of the union type. *)
Definition chartTypeName (t : ChartType) : jsstring :=
  match t with
  | pie => js "pie"
  | bar => js "bar"
  | doughnut => js "doughnut"
  | polarArea => js "polarArea"
  end.

Definition isBar (t : ChartType) : bool :=
  match t with
  | bar => true
  | _ => false
  end.

(** [scales.y] of the bar options.  The tick callback receives the tick
    value already converted by the template literal. *)
Record YScale := {
  y_beginAtZero : bool;
  y_max : Z;
  y_ticks_callback : jsstring -> jsstring
}.

(** The configuration handed to [new Chart].  Kept: kind, labels, data,
    legend position, tooltip label, title and scales.  The constant
    decoration (dataset label, colours, border, font, responsiveness) is
    left out; no property below speaks of it. *)
Record ChartConfig := {
  type : ChartType;
  labels : list jsstring;
  data : list (option Json);
  legend_position : jsstring;
  tooltip_label : jsstring -> jsstring -> jsstring;
  title_text : jsstring;
  scales : option YScale
}.

Definition Canvas := nat.
Definition ChartId := nat.

(** What the chart library observes. *)
Inductive ChartCall :=
| NewChart (id : ChartId) (surface : Canvas) (config : ChartConfig)
| Destroy (id : ChartId).

Definition created (calls : list ChartCall) : nat :=
  List.length (filter (fun c => match c with NewChart _ _ _ => true | Destroy _ => false end) calls).

(** Instances constructed and not yet destroyed, after a history of calls. *)
Fixpoint live_after (acc : list ChartId) (calls : list ChartCall) : list ChartId :=
  match calls with
  | [] => acc
  | NewChart id _ _ :: calls' => live_after (acc ++ [id]) calls'
  | Destroy id :: calls' => live_after (filter (fun c => negb (Nat.eqb c id)) acc) calls'
  end.

Definition live (calls : list ChartCall) : list ChartId := live_after [] calls.

(* ================================================================== *)
(** ** Component state (lines 26-34) *)

Record State := {
  reviewsText : jsstring;
  result : option Json;
  error : Json;
  isLoading : bool;
  selectedChartType : ChartType;
  selectedAspect : option jsstring;
  canvas : option Canvas;
  chartInstance : option ChartId;
  (** history of the calls made to the chart library, oldest first *)
  chartCalls : list ChartCall
}.

Definition initial : State :=
  {| reviewsText := js "";
     result := None;
     error := js "";
     isLoading := false;
     selectedChartType := pie;
     selectedAspect := None;
     canvas := None;
     chartInstance := None;
     chartCalls := [] |}.

Definition set_reviewsText (v : jsstring) (st : State) : State :=
  {| reviewsText := v; result := result st; error := error st;
     isLoading := isLoading st; selectedChartType := selectedChartType st;
     selectedAspect := selectedAspect st; canvas := canvas st;
     chartInstance := chartInstance st; chartCalls := chartCalls st |}.

Definition set_result (v : option Json) (st : State) : State :=
  {| reviewsText := reviewsText st; result := v; error := error st;
     isLoading := isLoading st; selectedChartType := selectedChartType st;
     selectedAspect := selectedAspect st; canvas := canvas st;
     chartInstance := chartInstance st; chartCalls := chartCalls st |}.

Definition set_error (v : Json) (st : State) : State :=
  {| reviewsText := reviewsText st; result := result st; error := v;
     isLoading := isLoading st; selectedChartType := selectedChartType st;
     selectedAspect := selectedAspect st; canvas := canvas st;
     chartInstance := chartInstance st; chartCalls := chartCalls st |}.

Definition set_isLoading (v : bool) (st : State) : State :=
  {| reviewsText := reviewsText st; result := result st; error := error st;
     isLoading := v; selectedChartType := selectedChartType st;
     selectedAspect := selectedAspect st; canvas := canvas st;
     chartInstance := chartInstance st; chartCalls := chartCalls st |}.

Definition set_selectedChartType (v : ChartType) (st : State) : State :=
  {| reviewsText := reviewsText st; result := result st; error := error st;
     isLoading := isLoading st; selectedChartType := v;
     selectedAspect := selectedAspect st; canvas := canvas st;
     chartInstance := chartInstance st; chartCalls := chartCalls st |}.

Definition set_selectedAspect (v : option jsstring) (st : State) : State :=
  {| reviewsText := reviewsText st; result := result st; error := error st;
     isLoading := isLoading st; selectedChartType := selectedChartType st;
     selectedAspect := v; canvas := canvas st;
     chartInstance := chartInstance st; chartCalls := chartCalls st |}.

Definition set_canvas (v : option Canvas) (st : State) : State :=
  {| reviewsText := reviewsText st; result := result st; error := error st;
     isLoading := isLoading st; selectedChartType := selectedChartType st;
     selectedAspect := selectedAspect st; canvas := v;
     chartInstance := chartInstance st; chartCalls := chartCalls st |}.

Definition set_chartInstance (v : option ChartId) (st : State) : State :=
  {| reviewsText := reviewsText st; result := result st; error := error st;
     isLoading := isLoading st; selectedChartType := selectedChartType st;
     selectedAspect := selectedAspect st; canvas := canvas st;
     chartInstance := v; chartCalls := chartCalls st |}.

(** A call into the chart library is appended to the history. *)
Definition call_chart (c : ChartCall) (st : State) : State :=
  {| reviewsText := reviewsText st; result := result st; error := error st;
     isLoading := isLoading st; selectedChartType := selectedChartType st;
     selectedAspect := selectedAspect st; canvas := canvas st;
     chartInstance := chartInstance st; chartCalls := chartCalls st ++ [c] |}.

(* ================================================================== *)
(** ** A monad for the script: state, exceptions and the trace of writes *)

Inductive completion (A : Type) :=
| Normal (a : A)
| Throw (message : jsstring).
Arguments Normal {A} a.
Arguments Throw {A} message.

(** A run yields how the code completed, the state it left, and every
    state it went through (one per write, oldest first). *)
Record Run (A : Type) := {
  outcome : completion A;
  final : State;
  trace : list State
}.
Arguments outcome {A} r.
Arguments final {A} r.
Arguments trace {A} r.

Definition M (A : Type) := State -> Run A.

Definition ret {A} (a : A) : M A :=
  fun st => {| outcome := Normal a; final := st; trace := [] |}.

Definition throw {A} (message : jsstring) : M A :=
  fun st => {| outcome := Throw message; final := st; trace := [] |}.

Definition bind {A B} (m : M A) (k : A -> M B) : M B :=
  fun st =>
    match m st with
    | {| outcome := Normal a; final := st1; trace := t1 |} =>
        match k a st1 with
        | {| outcome := o; final := st2; trace := t2 |} =>
            {| outcome := o; final := st2; trace := t1 ++ t2 |}
        end
    | {| outcome := Throw message; final := st1; trace := t1 |} =>
        {| outcome := Throw message; final := st1; trace := t1 |}
    end.

Declare Scope js_scope.
Delimit Scope js_scope with js.
Notation "x <- m ;; k" := (bind m (fun x => k))
  (at level 61, m at next level, right associativity) : js_scope.
Notation "m ;; k" := (bind m (fun _ => k))
  (at level 61, right associativity) : js_scope.
Open Scope js_scope.

Definition read {A} (field : State -> A) : M A :=
  fun st => {| outcome := Normal (field st); final := st; trace := [] |}.

Definition write (assign : State -> State) : M unit :=
  fun st => {| outcome := Normal tt; final := assign st; trace := [assign st] |}.

(** [try { m } catch (err) { handler(err.message) }] *)
Definition try_catch {A} (m : M A) (handler : jsstring -> M A) : M A :=
  fun st =>
    match m st with
    | {| outcome := Normal a; final := st1; trace := t1 |} =>
        {| outcome := Normal a; final := st1; trace := t1 |}
    | {| outcome := Throw message; final := st1; trace := t1 |} =>
        match handler message st1 with
        | {| outcome := o; final := st2; trace := t2 |} =>
            {| outcome := o; final := st2; trace := t1 ++ t2 |}
        end
    end.

(** [try { m } finally { fin }] *)
Definition try_finally {A} (m : M A) (fin : M unit) : M A :=
  fun st =>
    match m st with
    | {| outcome := o; final := st1; trace := t1 |} =>
        match fin st1 with
        | {| outcome := Normal _; final := st2; trace := t2 |} =>
            {| outcome := o; final := st2; trace := t1 ++ t2 |}
        | {| outcome := Throw message; final := st2; trace := t2 |} =>
            {| outcome := Throw message; final := st2; trace := t1 ++ t2 |}
        end
    end.

(** [xs.forEach(body)] *)
Fixpoint forEach {A} (xs : list A) (body : A -> M unit) : M unit :=
  match xs with
  | [] => ret tt
  | x :: xs' => body x ;; forEach xs' body
  end.

(** A settled promise, and [await] on it. *)
Inductive Promise (A : Type) :=
| Rejects (message : jsstring)
| Resolves (a : A).
Arguments Rejects {A} message.
Arguments Resolves {A} a.

Definition await {A} (p : Promise A) : M A :=
  match p with
  | Rejects message => throw message
  | Resolves a => ret a
  end.

(* ================================================================== *)
(** ** [analyze] (lines 52-97) *)

(** What the service can answer: a response that is [ok] or not, whose
    body parses to some document or makes [response.json()] reject.
    [type_error] is the message of the [TypeError] the engine raises when
    the script, handling that body, reads a property of [null] or
    [undefined] or calls what is no function; the wording is the
    engine's. *)
Inductive Response :=
| NotOk (json : Promise (option Json)) (type_error : jsstring)
| Ok (json : Promise (option Json)) (type_error : jsstring).

(** [err.error] *)
Definition error_of (type_error : jsstring) (err : option Json)
  : M (option (option Json)) :=
  match err with
  | None => throw type_error
  | Some v => ret (member (js "error") v)
  end.

(** [result?.insights] *)
Definition insights_of (r : option Json) : option (option Json) :=
  match r with
  | None => None
  | Some v => member (js "insights") v
  end.

(** [Object.keys(v)[0]] *)
Definition first_aspect (v : Json) : option jsstring :=
  nth_error (keys (entries v)) 0.


(** [Object.values(d)] gives a reference to every value; a reference is
    the position of the entry. *)
Definition value_refs {V} (d : Dict V) : list nat := seq 0 (List.length d).

(** The value a reference points to, inside [result.insights]. *)
Definition data_at (ref : nat) (r : option Json) : option (option Json) :=
  match if_truthy (insights_of r) with
  | Some v => nth_error (values (entries v)) ref
  | None => None
  end.

(** The strings of an array, when all its items are strings. *)
Fixpoint strings_of (items : list (option Json)) : option (list jsstring) :=
  match items with
  | [] => Some []
  | Some (JString s) :: items' =>
      match strings_of items' with
      | Some l => Some (s :: l)
      | None => None
      end
  | _ => None
  end.

(** The right-hand side of line 86 for one [data]:
    [data.common_keywords.map(...).filter(...)].  It evaluates when [data]
    is an object whose [common_keywords] is an array of strings; on every
    other value a property is read off [null] or [undefined], or [map] or
    [replace] is no function, and a [TypeError] is thrown ([None]). *)
Definition cleaned_keywords (data : option Json) : option (list jsstring) :=
  match data with
  | Some d =>
      match member (js "common_keywords") d with
      | Some (Some (JArray items)) =>
          match strings_of items with
          | Some kws => Some (normalize_keywords kws)
          | None => None
          end
      | _ => None
      end
  | None => None
  end.

(** Assignment through a reference: the value at position [i] is
    replaced by [f] of it. *)
Fixpoint update_at {V} (i : nat) (f : V -> V) (d : Dict V) : Dict V :=
  match d, i with
  | [], _ => []
  | (k, v) :: d', O => (k, f v) :: d'
  | kv :: d', S i' => kv :: update_at i' f d'
  end.

Fixpoint update_item {A} (i : nat) (f : A -> A) (l : list A) : list A :=
  match l, i with
  | [], _ => []
  | x :: l', O => f x :: l'
  | x :: l', S i' => x :: update_item i' f l'
  end.

(** [data.common_keywords = kws] *)
Definition with_keywords (kws : list jsstring) (data : option Json) : option Json :=
  match data with
  | Some (JObject members) =>
      Some (JObject (set_member (js "common_keywords")
                                (Some (shaped_keywords kws)) members))
  | other => other
  end.

(** The same collection with [f] applied to the value at position [i]. *)
Definition update_entry (i : nat) (f : option Json -> option Json) (v : Json) : Json :=
  match v with
  | JObject members => JObject (update_at i f members)
  | JArray items => JArray (update_item i f items)
  | other => other
  end.

(** The same document with [f] applied to its [insights] member. *)
Definition update_insights (f : Json -> Json) (v : Json) : Json :=
  match v with
  | JObject members =>
      JObject (List.map (fun kv => if Js.eqb (fst kv) (js "insights")
                                   then (fst kv, option_map f (snd kv))
                                   else kv) members)
  | other => other
  end.

(** [data.common_keywords = kws] for the [data] that [ref] points to
    inside [result.insights]; the document held in [result] is changed in
    place. *)
Definition assign_keywords (ref : nat) (kws : list jsstring) (st : State) : State :=
  set_result
    (option_map (update_insights (update_entry ref (with_keywords kws))) (result st))
    st.

(** The callback of line 85 for the [data] that [ref] points to. *)
Definition clean_data (type_error : jsstring) (ref : nat) : M unit :=
  r <- read result ;;
  match data_at ref r with
  | Some data =>
      match cleaned_keywords data with
      | Some kws => write (assign_keywords ref kws)
      | None => throw type_error
      end
  | None => ret tt
  end.

(** The request of line 69; its body is [{ reviews }]. *)
Record Request := {
  url : jsstring;
  method : jsstring;
  reviews : list jsstring
}.

(** Lines 57-60: [text.split('\n').map(r => r.trim()).filter(r => r)] *)
Definition reviews_of (text : jsstring) : list jsstring :=
  filter Js.truthy (List.map Js.trim (Js.split 10%N text)).

(** Lines 53-75: up to the call of [fetch].  [Some request] means the
    function is suspended on that request; [None] means it returned
    without calling [fetch]. *)
Definition analyze_begin : M (option Request) :=
  write (set_error (js "")) ;;
  write (set_result None) ;;
  write (set_isLoading true) ;;
  text <- read reviewsText ;;
  let reviews := reviews_of text in
  if Nat.eqb (List.length reviews) 0 then
    write (set_error (js "Please enter at least one review.")) ;;
    write (set_isLoading false) ;;
    ret None
  else
    ret (Some {| url := js "http://localhost:5000/analyze";
                 method := js "POST";
                 reviews := reviews |}).

(** Lines 83-91: what [analyze] does with the body of an [ok]
    response. *)
Definition keep_result (parsed : option Json) (type_error : jsstring) : M unit :=
  write (set_result parsed) ;;
  r <- read result ;;
  match if_truthy (insights_of r) with
  | Some v =>
      forEach (value_refs (entries v))
              (fun data => clean_data type_error data)
  | None => ret tt
  end ;;
  r <- read result ;;
  write (set_selectedAspect
           match if_truthy (insights_of r) with
           | Some v => first_aspect v
           | None => None
           end).

(** Lines 68-96: the rest of [analyze], once [fetch] has settled.  No
    write happens between the two [await]s, so both are resumed here. *)
Definition analyze_resume (fetched : Promise Response) : M unit :=
  try_finally
    (try_catch
       (response <- await fetched ;;
        match response with
        | NotOk json type_error =>
            err <- await json ;;
            e <- error_of type_error err ;;
            write (set_error (or_json e (js "Something went wrong.")))
        | Ok json type_error =>
            parsed <- await json ;;
            keep_result parsed type_error
        end)
       (fun message =>
          write (set_error (or_else message (js "Request failed.")))))
    (write (set_isLoading false)).

(* ================================================================== *)
(** ** [renderChart] (lines 106-169) and the effects (lines 179-189) *)

Definition bar_scale : YScale :=
  {| y_beginAtZero := true;
     y_max := 100;
     y_ticks_callback := fun value => value ++ js "%" |}.

Definition chart_config (aspect : jsstring) (t : ChartType)
                        (sentimentData : Json) : ChartConfig :=
  {| type := t;
     labels := keys (entries sentimentData);
     data := values (entries sentimentData);
     legend_position := if isBar t then js "top" else js "right";
     tooltip_label := fun label raw => label ++ js ": " ++ raw ++ js "%";
     title_text := aspect ++ js " Sentiment (" ++ chartTypeName t ++ js ")";
     scales := if isBar t then Some bar_scale else None |}.

(** A stored result used as a condition: the document when truthy. *)
Definition if_result (r : option Json) : option Json :=
  if_truthy (Some r).

(** Lines 109-110: [result.insights[selectedAspect].sentiment], ready for
    [Object.keys].  [None] when one of the two lines throws: [insights] or
    the entry is [undefined] or [null], or the entry has no [sentiment]
    (or a [null] one).  A name that is no own key but a built-in property
    ([length], [constructor], ...) yields a value without [sentiment], so
    line 110 throws for it as well. *)
Definition sentiment_at (res : Json) (aspect : jsstring) : option Json :=
  match member (js "insights") res with
  | Some (Some v) =>
      match get (entries v) aspect with
      | Some (Some entry) =>
          match member (js "sentiment") entry with
          | Some (Some s) => Some s
          | _ => None
          end
      | _ => None
      end
  | _ => None
  end.

(** When line 109 or line 110 throws, it does so before any call to the
    chart library; nothing reads the message. *)
Definition renderChart : M unit :=
  r <- read result ;;
  cv <- read canvas ;;
  a <- read selectedAspect ;;
  match if_result r, cv, or_undefined a with
  | Some res, Some surface, Some aspect =>
      match sentiment_at res aspect with
      | None => throw (js "TypeError")
      | Some sentimentData =>
          inst <- read chartInstance ;;
          match inst with
          | Some c => write (call_chart (Destroy c))
          | None => ret tt
          end ;;
          t <- read selectedChartType ;;
          id <- read (fun st => created (chartCalls st)) ;;
          write (call_chart (NewChart id surface (chart_config aspect t sentimentData))) ;;
          write (set_chartInstance (Some id))
      end
  | _, _, _ => ret tt
  end.

(** Line 180: whether the first effect schedules [renderChart]. *)
Definition chart_effect_schedules (st : State) : bool :=
  truthy_json (result st).

(** [Object.keys(v)], which throws on [undefined] and [null]; in the
    effect nothing reads the message. *)
Definition Object_keys (v : option (option Json)) : M (list jsstring) :=
  match v with
  | Some (Some j) => ret (keys (entries j))
  | _ => throw (js "TypeError")
  end.

(** Lines 185-189. *)
Definition repair_effect : M unit :=
  r <- read result ;;
  a <- read selectedAspect ;;
  match if_result r, or_undefined a with
  | Some res, None =>
      ks <- Object_keys (member (js "insights") res) ;;
      write (set_selectedAspect (or_undefined (nth_error ks 0)))
  | _, _ => ret tt
  end.

(* ================================================================== *)
(** ** The component as an event machine *)

(** What can happen to the component besides [analyze]: the bindings and
    handlers of the markup, and the two effects whenever the scheduler
    runs them.  [RenderChart] is a run of [renderChart] queued earlier by
    the first effect. *)
Inductive UIEvent :=
| Input (text : jsstring)
| SelectChartType (t : ChartType)
| SelectAspect (aspect : jsstring)
| BindCanvas (element : option Canvas)
| RepairEffect
| RenderChart.

Inductive Event :=
| UI (e : UIEvent)
| AnalyzeBegin
| AnalyzeResume (fetched : Promise Response)
| Teardown.

Definition handle_ui (e : UIEvent) : M unit :=
  match e with
  | Input text => write (set_reviewsText text)
  | SelectChartType t => write (set_selectedChartType t)
  | SelectAspect aspect => write (set_selectedAspect (Some aspect))
  | BindCanvas element => write (set_canvas element)
  | RepairEffect => repair_effect
  | RenderChart => renderChart
  end.

(** The script registers no clean-up: no effect returns a function and
    [onMount] is imported but never called.  Tearing the view down only
    releases the [bind:this] reference. *)
Definition teardown : M unit :=
  write (set_canvas None).

Definition handle (e : Event) : M unit :=
  match e with
  | UI e' => handle_ui e'
  | AnalyzeBegin => analyze_begin ;; ret tt
  | AnalyzeResume fetched => analyze_resume fetched
  | Teardown => teardown
  end.

(** An exception escaping a handler is reported and dropped; the event
    loop goes on. *)
Definition dispatch {E} (h : E -> M unit) (e : E) : M unit :=
  try_catch (h e) (fun _ => ret tt).

Fixpoint run {E} (h : E -> M unit) (events : list E) : M unit :=
  match events with
  | [] => ret tt
  | e :: events' => dispatch h e ;; run h events'
  end.

(** One submission: [analyze] is called; if it reaches [fetch], the
    events [during] happen while it is suspended and it resumes with
    [fetched]; the events [after] follow. *)
Definition submission (during : list UIEvent) (fetched : Promise Response)
                      (after : list UIEvent) : M unit :=
  pending <- analyze_begin ;;
  match pending with
  | Some _ => run handle_ui during ;; analyze_resume fetched
  | None => ret tt
  end ;;
  run handle_ui after.

(** The state in which neither or only one of result and error is
    shown. *)
Definition exclusive (st : State) : Prop :=
  (error st <> js "" -> result st = None) /\
  (result st <> None -> error st = js "").



(** A text the validation of [analyze] rejects: nothing but white space
    and line breaks. *)
Definition blank (text : jsstring) : bool :=
  forallb is_white_space text.

(** [m] never changes the observation [f], at no point of its run. *)
Definition stable {A B} (f : State -> A) (m : M B) : Prop :=
  forall st,
    f (final (m st)) = f st /\ Forall (fun s => f s = f st) (trace (m st)).

(** [m] always completes normally. *)
Definition total {B} (m : M B) : Prop :=
  forall st, exists b, outcome (m st) = Normal b.

(** The part of the state the chart library is concerned with. *)
Definition chart_part (st : State) : option ChartId * list ChartCall :=
  (chartInstance st, chartCalls st).

(** The part of the state the result store consists of. *)
Definition store_part (st : State) : option Json * Json :=
  (result st, error st).

(** The histories [renderChart] can produce, with the instance it holds
    at the end: a first construction, then pairs of a destruction of the
    held instance and a construction. *)
Inductive lifecycle : list ChartCall -> option ChartId -> Prop :=
| lifecycle_none : lifecycle [] None
| lifecycle_first surface config :
    lifecycle [NewChart 0 surface config] (Some 0)
| lifecycle_replace calls held surface config :
    lifecycle calls (Some held) ->
    lifecycle (calls ++ [Destroy held; NewChart (created calls) surface config])
              (Some (created calls)).



(** The two fallback messages of [analyze]. *)
Definition generic_message (shown : Json) : Prop :=
  shown = js "Something went wrong." \/ shown = js "Request failed.".

(** The message a rejected submission is expected to show: the [error]
    member of the body when it is a message, a generic message
    otherwise. *)
Definition shows_service_message (json : Promise (option Json)) (shown : Json) : Prop :=
  match json with
  | Resolves (Some body) =>
      match member (js "error") body with
      | Some (Some (JString (c :: m))) => shown = JString (c :: m)
      | _ => generic_message shown
      end
  | _ => generic_message shown
  end.

(** A body on which lines 85-88 do not throw: its [insights] is falsy or
    missing, or every value in it is an object whose [common_keywords] is
    an array of strings. *)
Definition keywords_well_formed (body : option Json) : bool :=
  match if_truthy (insights_of body) with
  | Some v =>
      forallb (fun data => match cleaned_keywords data with
                           | Some _ => true
                           | None => false
                           end)
              (values (entries v))
  | None => true
  end.

(** An answer whose [ok] body, if it has one, passes lines 85-88. *)
Definition passes_cleanup (fetched : Promise Response) : Prop :=
  forall body type_error,
    fetched = Resolves (Ok (Resolves body) type_error) ->
    keywords_well_formed body = true.



(** The instance the history leaves attached, if the controller holds
    it. *)
Definition held_only (st : State) : Prop :=
  live (chartCalls st) =
    match chartInstance st with
    | Some c => [c]
    | None => []
    end.

(* ================================================================== *)
(** ** The page as the markup lets it be used (lines 192-411) *)

(** The controls of the markup guard the handlers: the text area and the
    button are [disabled={isLoading}], the chart type menu and the aspect
    items exist only inside [{#if result}], and there is one aspect item
    (and one card) per key of [result.insights].  Next to the state, the
    page keeps the requests that [fetch] has not settled yet. *)
Record Page := {
  view : State;
  inflight : list Request
}.

Definition start : Page := {| view := initial; inflight := [] |}.

Inductive Action :=
| TypeReviews (text : jsstring)
| ClickAnalyze
| Settle (i : nat) (fetched : Promise Response)
    (** the [i]-th request in flight settles and its [analyze] resumes *)
| PickChartType (t : ChartType)
| PickAspect (i : nat)
    (** the [i]-th aspect item of the menu, or the [i]-th card *)
| Bind (element : option Canvas)
| RunRepairEffect
| RunRenderChart.

Fixpoint remove_nth {A} (i : nat) (l : list A) : list A :=
  match l, i with
  | [], _ => []
  | _ :: l', O => l'
  | x :: l', S i' => x :: remove_nth i' l'
  end.

(** The aspect items on the page: [Object.keys(result.insights)] inside
    [{#if result}] (lines 325 and 350); none when that block is not
    rendered, or when [Object.keys] throws while it is. *)
Definition aspect_items (r : option Json) : list jsstring :=
  match if_result r with
  | Some res =>
      match member (js "insights") res with
      | Some (Some v) => keys (entries v)
      | _ => []
      end
  | None => []
  end.

Definition act (a : Action) (p : Page) : Page :=
  match a with
  | TypeReviews text =>
      if isLoading (view p) then p
      else {| view := final (write (set_reviewsText text) (view p));
              inflight := inflight p |}
  | ClickAnalyze =>
      if isLoading (view p) then p
      else
        let r := analyze_begin (view p) in
        {| view := final r;
           inflight := match outcome r with
                       | Normal (Some request) => inflight p ++ [request]
                       | _ => inflight p
                       end |}
  | Settle i fetched =>
      match nth_error (inflight p) i with
      | Some _ =>
          {| view := final (analyze_resume fetched (view p));
             inflight := remove_nth i (inflight p) |}
      | None => p
      end
  | PickChartType t =>
      match if_result (result (view p)) with
      | Some _ =>
          {| view := final (write (set_selectedChartType t) (view p));
             inflight := inflight p |}
      | None => p
      end
  | PickAspect i =>
      match nth_error (aspect_items (result (view p))) i with
      | Some aspect =>
          {| view := final (write (set_selectedAspect (Some aspect)) (view p));
             inflight := inflight p |}
      | None => p
      end
  | Bind element =>
      {| view := final (write (set_canvas element) (view p)); inflight := inflight p |}
  | RunRepairEffect =>
      {| view := final (repair_effect (view p)); inflight := inflight p |}
  | RunRenderChart =>
      {| view := final (renderChart (view p)); inflight := inflight p |}
  end.

Definition perform (actions : list Action) (p : Page) : Page :=
  fold_left (fun q a => act a q) actions p.


(** What holds of the page whatever the user does and whatever the
    service answers. *)
Record page_ok (p : Page) : Prop := {
  ok_single : List.length (inflight p) <= 1;
  ok_busy : inflight p <> [] <-> isLoading (view p) = true;
  ok_pending : isLoading (view p) = true ->
               result (view p) = None /\ error (view p) = js ""
}.

(** What an action brings into the page. *)
Definition answers (P : Promise Response -> Prop) (a : Action) : Prop :=
  match a with
  | Settle _ fetched => P fetched
  | _ => True
  end.

(** A keyword as the data model wants it after clean-up. *)
Definition clean_keyword (k : jsstring) : Prop :=
  k <> [] /\ forallb is_ascii_letter k = true.

(* ================================================================== *)
(** ** Dark mode (lines 7-14) *)

(** [darkMode] and the class list of the root element.  A class list is
    an ordered set of tokens: [add] appends a token that is not there yet,
    [remove] deletes it. *)
Record Theme := {
  darkMode : bool;
  classList : list jsstring
}.

Definition classList_add (token : jsstring) (l : list jsstring) : list jsstring :=
  if existsb (Js.eqb token) l then l else l ++ [token].

Definition classList_remove (token : jsstring) (l : list jsstring) : list jsstring :=
  filter (fun t => negb (Js.eqb t token)) l.

(** The effect of line 8. *)
Definition theme_effect (th : Theme) : Theme :=
  {| darkMode := darkMode th;
     classList := if darkMode th
                  then classList_add (js "dark") (classList th)
                  else classList_remove (js "dark") (classList th) |}.

(** The handler of line 197, followed by the effect it triggers. *)
Definition toggle_darkMode (th : Theme) : Theme :=
  theme_effect {| darkMode := negb (darkMode th); classList := classList th |}.

(* ================================================================== *)
(** * Properties *)

(** ** Strings *)

Section StringFacts.

Lemma js_eqb_refl (s : jsstring) : Js.eqb s s = true.
Proof.
  induction s as [|c s IH]; cbn; [reflexivity|].
  unfold code_unit_eqb. now rewrite N.eqb_refl.
Qed.

Lemma js_eqb_eq (s t : jsstring) : Js.eqb s t = true <-> s = t.
Proof.
  split; [|intros ->; apply js_eqb_refl].
  revert t; induction s as [|c s IH]; intros [|d t]; cbn; try discriminate; auto.
  unfold code_unit_eqb. intros H. apply andb_true_iff in H as [Hc Hs].
  apply N.eqb_eq in Hc. subst d. f_equal. now apply IH.
Qed.

Lemma non_alphabetic_letter (c : code_unit) :
  non_alphabetic c = negb (is_ascii_letter c).
Proof.
  unfold non_alphabetic, is_ascii_letter, in_range. cbn.
  f_equal. apply orb_comm.
Qed.

Lemma replace_strip (k : jsstring) :
  replace_all non_alphabetic [] k = strip_non_letters k.
Proof.
  induction k as [|c k IH]; cbn; [reflexivity|].
  rewrite non_alphabetic_letter.
  destruct (is_ascii_letter c); cbn; now rewrite IH.
Qed.

Lemma strip_letters (k : jsstring) :
  forallb is_ascii_letter k = true -> strip_non_letters k = k.
Proof.
  induction k as [|c k IH]; cbn; [reflexivity|].
  intros H. apply andb_true_iff in H as [Hc Hk].
  rewrite Hc. f_equal. now apply IH.
Qed.

Lemma strip_all_letters (k : jsstring) :
  forallb is_ascii_letter (strip_non_letters k) = true.
Proof.
  induction k as [|c k IH]; cbn; [reflexivity|].
  destruct (is_ascii_letter c) eqn:Hc; cbn; [rewrite Hc|]; exact IH.
Qed.

Lemma trimStart_blank (s : jsstring) : blank s = true -> trimStart s = [].
Proof.
  induction s as [|c s IH]; cbn; [reflexivity|].
  intros H. apply andb_true_iff in H as [Hc Hs].
  rewrite Hc. now apply IH.
Qed.

Lemma trim_blank (s : jsstring) : blank s = true -> Js.trim s = [].
Proof.
  intros H. unfold Js.trim, trimEnd. now rewrite (trimStart_blank s H).
Qed.

Lemma split_blank (sep : code_unit) (s : jsstring) :
  blank s = true -> Forall (fun line => blank line = true) (Js.split sep s).
Proof.
  induction s as [|c s IH]; cbn.
  - intros _. now constructor.
  - intros H. apply andb_true_iff in H as [Hc Hs]. specialize (IH Hs).
    destruct (code_unit_eqb c sep).
    + constructor; [reflexivity | exact IH].
    + destruct (Js.split sep s) as [|line lines].
      * constructor; [unfold blank; cbn; now rewrite Hc | constructor].
      * inversion IH as [|? ? Hl Hls]; subst.
        constructor; [|exact Hls].
        unfold blank in *. cbn. now rewrite Hc, Hl.
Qed.

Lemma no_review_of_blank_lines (lines : list jsstring) :
  Forall (fun line => blank line = true) lines ->
  filter Js.truthy (List.map Js.trim lines) = [].
Proof.
  induction 1 as [|line lines Hl _ IH]; [reflexivity|].
  cbn [List.map]. rewrite (trim_blank line Hl). exact IH.
Qed.

End StringFacts.

(** ** The keyword normalizer *)

Lemma normalize_keywords_unfold (kws : list jsstring) :
  normalize_keywords kws = normalize_spec kws.
Proof.
  unfold normalize_keywords.
  induction kws as [|k kws IH]; [reflexivity|].
  cbn [List.map filter normalize_spec].
  rewrite replace_strip, IH.
  now destruct (strip_non_letters k) as [|c k'].
Qed.

Lemma normalize_spec_clean (kws : list jsstring) :
  Forall (fun k => k <> [] /\ forallb is_ascii_letter k = true) (normalize_spec kws).
Proof.
  induction kws as [|k kws IH]; cbn; [constructor|].
  pose proof (strip_all_letters k) as Hk.
  destruct (strip_non_letters k) as [|c k']; [exact IH|].
  constructor; [split; [discriminate | exact Hk] | exact IH].
Qed.

Lemma normalize_spec_fixed (kws : list jsstring) :
  Forall (fun k => k <> [] /\ forallb is_ascii_letter k = true) kws ->
  normalize_spec kws = kws.
Proof.
  induction 1 as [|k kws [Hne Hk] _ IH]; cbn; [reflexivity|].
  rewrite (strip_letters k Hk), IH.
  destruct k; [contradiction | reflexivity].
Qed.

(** C6. The clean-up of line 86 maps every keyword to its ASCII letters,
    drops the keywords left empty, keeps the others in their order and
    keeps repetitions: it is the function [normalize_spec], and on
    ["fast!"; "2-day"; ""; "Good"] it returns ["fast"; "day"; "Good"]. *)
Theorem normalize_keywords_correct :
  (forall kws, normalize_keywords kws = normalize_spec kws) /\
  (forall k, replace_all non_alphabetic [] k = filter is_ascii_letter k) /\
  normalize_keywords [js "fast!"; js "2-day"; js ""; js "Good"]
    = [js "fast"; js "day"; js "Good"] /\
  normalize_keywords [js "ok"; js "ok"] = [js "ok"; js "ok"].
Proof.
  split; [exact normalize_keywords_unfold|].
  split; [exact replace_strip|].
  split; reflexivity.
Qed.

(** C7. Cleaning a cleaned keyword list changes nothing. *)
Theorem normalize_keywords_idempotent (x : list jsstring) :
  normalize_keywords (normalize_keywords x) = normalize_keywords x.
Proof.
  rewrite !normalize_keywords_unfold.
  apply normalize_spec_fixed, normalize_spec_clean.
Qed.

(** ** Validation *)

Lemma analyze_begin_blank (st : State) :
  blank (reviewsText st) = true ->
  analyze_begin st =
    {| outcome := Normal None;
       final := set_isLoading false
                  (set_error (js "Please enter at least one review.")
                     (set_isLoading true (set_result None (set_error (js "") st))));
       trace := [ set_error (js "") st;
                  set_result None (set_error (js "") st);
                  set_isLoading true (set_result None (set_error (js "") st));
                  set_error (js "Please enter at least one review.")
                    (set_isLoading true (set_result None (set_error (js "") st)));
                  set_isLoading false
                    (set_error (js "Please enter at least one review.")
                       (set_isLoading true (set_result None (set_error (js "") st)))) ] |}.
Proof.
  intros H.
  pose proof (no_review_of_blank_lines _ (split_blank 10%N _ H)) as Hr.
  fold (reviews_of (reviewsText st)) in Hr.
  unfold analyze_begin, bind, write, read, ret. cbn -[js reviews_of].
  rewrite Hr. reflexivity.
Qed.

(** C4. When the text holds nothing but white space (or nothing at all),
    [analyze] returns without calling [fetch], shows the validation
    message and clears the busy flag. *)
Theorem analyze_blank_input (st : State) :
  blank (reviewsText st) = true ->
  outcome (analyze_begin st) = Normal None /\
  error (final (analyze_begin st)) = js "Please enter at least one review." /\
  isLoading (final (analyze_begin st)) = false /\
  result (final (analyze_begin st)) = None.
Proof.
  intros H. rewrite (analyze_begin_blank st H). cbn -[js]. auto.
Qed.

Lemma analyze_blank_input_witness :
  let st := set_reviewsText (js "  " ++ [10%N; 9%N; 13%N; 10%N]) initial in
  outcome (analyze_begin st) = Normal None /\
  error (final (analyze_begin st)) = js "Please enter at least one review." /\
  isLoading (final (analyze_begin st)) = false /\
  result (final (analyze_begin st)) = None.
Proof.
  intros st. apply (analyze_blank_input st). reflexivity.
Defined.

(* ================================================================== *)
(** ** Reasoning about runs *)

Section Runs.

Context {A : Type} (f : State -> A).

Lemma stable_ret {B} (b : B) : stable f (ret b).
Proof. intros st; cbn; auto. Qed.

Lemma stable_throw {B} (message : jsstring) : stable f (@throw B message).
Proof. intros st; cbn; auto. Qed.

Lemma stable_read {B} (field : State -> B) : stable f (read field).
Proof. intros st; cbn; auto. Qed.

Lemma stable_await {B} (p : Promise B) : stable f (await p).
Proof. destruct p; [apply stable_throw | apply stable_ret]. Qed.

Lemma stable_write (g : State -> State) :
  (forall st, f (g st) = f st) -> stable f (write g).
Proof. intros H st; cbn; auto. Qed.

Lemma Forall_rebase (st st' : State) (tr : list State) :
  f st' = f st ->
  Forall (fun s => f s = f st') tr -> Forall (fun s => f s = f st) tr.
Proof. intros E. apply Forall_impl. intros s ->. exact E. Qed.

Lemma stable_bind {B C} (m : M B) (k : B -> M C) :
  stable f m -> (forall b, stable f (k b)) -> stable f (bind m k).
Proof.
  intros Hm Hk st. destruct (Hm st) as [E T]. unfold bind.
  destruct (m st) as [[b|message] s1 t1]; cbn in *; [|auto].
  destruct (Hk b s1) as [E' T'].
  destruct (k b s1) as [o s2 t2]; cbn in *.
  split; [congruence|].
  apply Forall_app; split; [exact T|].
  now apply Forall_rebase with (st' := s1).
Qed.

Lemma stable_try_catch {B} (m : M B) (handler : jsstring -> M B) :
  stable f m -> (forall message, stable f (handler message)) ->
  stable f (try_catch m handler).
Proof.
  intros Hm Hh st. destruct (Hm st) as [E T]. unfold try_catch.
  destruct (m st) as [[b|message] s1 t1]; cbn in *; [auto|].
  destruct (Hh message s1) as [E' T'].
  destruct (handler message s1) as [o s2 t2]; cbn in *.
  split; [congruence|].
  apply Forall_app; split; [exact T|].
  now apply Forall_rebase with (st' := s1).
Qed.

Lemma stable_try_finally {B} (m : M B) (fin : M unit) :
  stable f m -> stable f fin -> stable f (try_finally m fin).
Proof.
  intros Hm Hf st. destruct (Hm st) as [E T]. unfold try_finally.
  destruct (m st) as [o s1 t1]; cbn in *.
  destruct (Hf s1) as [E' T'].
  destruct (fin s1) as [[[]|message] s2 t2]; cbn in *;
    (split; [congruence|]);
    (apply Forall_app; split; [exact T|]);
    now apply Forall_rebase with (st' := s1).
Qed.

Lemma stable_forEach {B} (xs : list B) (body : B -> M unit) :
  (forall x, stable f (body x)) -> stable f (forEach xs body).
Proof.
  intros H. induction xs as [|x xs IH]; cbn [forEach].
  - apply stable_ret.
  - apply stable_bind; auto.
Qed.

Lemma stable_run {E} (h : E -> M unit) (events : list E) :
  (forall e, stable f (h e)) -> stable f (run h events).
Proof.
  intros H. induction events as [|e events IH]; cbn [run].
  - apply stable_ret.
  - apply stable_bind; [|auto].
    apply stable_try_catch; [apply H | intros; apply stable_ret].
Qed.

End Runs.

Ltac stable_step :=
  first
    [ apply stable_ret
    | apply stable_throw
    | apply stable_read
    | apply stable_await
    | apply stable_write; intros; reflexivity
    | apply stable_bind; [|intros ?]
    | apply stable_try_catch; [|intros ?]
    | apply stable_try_finally
    | apply stable_forEach; intros ?
    | match goal with
      | |- stable _ (match ?x with _ => _ end) => destruct x
      end
    | progress unfold keep_result, clean_data, error_of, Object_keys ].

Ltac stable_auto := cbv zeta; repeat stable_step.

Lemma dispatch_total {E} (h : E -> M unit) (e : E) (st : State) :
  outcome (dispatch h e st) = Normal tt.
Proof.
  unfold dispatch, try_catch.
  now destruct (h e st) as [[[]|message] s1 t1].
Qed.

Lemma outcome_bind {A B} (m : M A) (k : A -> M B) (st : State) :
  outcome (bind m k st) =
    match outcome (m st) with
    | Normal a => outcome (k a (final (m st)))
    | Throw message => Throw message
    end.
Proof.
  unfold bind. destruct (m st) as [[a|message] s1 t1]; cbn; [|reflexivity].
  now destruct (k a s1).
Qed.

Lemma final_bind {A B} (m : M A) (k : A -> M B) (st : State) :
  final (bind m k st) =
    match outcome (m st) with
    | Normal a => final (k a (final (m st)))
    | Throw _ => final (m st)
    end.
Proof.
  unfold bind. destruct (m st) as [[a|message] s1 t1]; cbn; [|reflexivity].
  now destruct (k a s1).
Qed.


Lemma run_total {E} (h : E -> M unit) (events : list E) (st : State) :
  outcome (run h events st) = Normal tt.
Proof.
  revert st. induction events as [|e events IH]; intros st; cbn [run]; [reflexivity|].
  rewrite outcome_bind, dispatch_total. apply IH.
Qed.

(** ** What each handler leaves alone *)

Lemma analyze_begin_chart : stable chart_part analyze_begin.
Proof. unfold analyze_begin. stable_auto. Qed.

Lemma analyze_resume_chart fetched : stable chart_part (analyze_resume fetched).
Proof. unfold analyze_resume, error_of. stable_auto. Qed.

Lemma repair_effect_chart : stable chart_part repair_effect.
Proof. unfold repair_effect. stable_auto. Qed.

Lemma teardown_chart : stable chart_part teardown.
Proof. unfold teardown. stable_auto. Qed.

Lemma handle_ui_store (e : UIEvent) : stable store_part (handle_ui e).
Proof. destruct e; unfold handle_ui, repair_effect, renderChart; stable_auto. Qed.

(** ** Closed forms of [analyze] *)





(** *** Documents of the declared shape *)

















Lemma analyze_resume_null (t : jsstring) (st : State) :
  let s1 := set_result None st in
  let s2 := set_selectedAspect None s1 in
  analyze_resume (Resolves (Ok (Resolves None) t)) st =
    {| outcome := Normal tt;
       final := set_isLoading false s2;
       trace := [s1; s2; set_isLoading false s2] |}.
Proof. reflexivity. Qed.

(** Every answer that brings no body to keep shows one value and clears
    the busy flag. *)
Lemma analyze_resume_failure (fetched : Promise Response) (st : State) :
  forall shown : Json,
    match fetched with
    | Rejects m => Some (JString (or_else m (js "Request failed.")))
    | Resolves (NotOk (Rejects m) _) => Some (JString (or_else m (js "Request failed.")))
    | Resolves (NotOk (Resolves None) t) => Some (JString (or_else t (js "Request failed.")))
    | Resolves (NotOk (Resolves (Some body)) _) =>
        Some (or_json (member (js "error") body) (js "Something went wrong."))
    | Resolves (Ok (Rejects m) _) => Some (JString (or_else m (js "Request failed.")))
    | Resolves (Ok (Resolves _) _) => None
    end = Some shown ->
    analyze_resume fetched st =
      {| outcome := Normal tt;
         final := set_isLoading false (set_error shown st);
         trace := [set_error shown st; set_isLoading false (set_error shown st)] |}.
Proof.
  intros shown H.
  destruct fetched as [m | [ [m | [body|]] t | [m | body] t ]];
    try discriminate H; injection H as <-; reflexivity.
Qed.

(** *** Any answer *)

Lemma finally_write_final {A} (m : M A) (g : State -> State) (st : State) :
  final (try_finally m (write g) st) = g (final (m st)).
Proof. unfold try_finally, write. now destruct (m st). Qed.

Lemma finally_write_outcome {A} (m : M A) (g : State -> State) (st : State) :
  outcome (try_finally m (write g) st) = outcome (m st).
Proof. unfold try_finally, write. now destruct (m st). Qed.

Lemma catch_write_outcome (m : M unit) (g : jsstring -> State -> State) (st : State) :
  outcome (try_catch m (fun message => write (g message)) st) = Normal tt.
Proof. unfold try_catch, write. now destruct (m st) as [[[]|message] s1 t1]. Qed.

Lemma analyze_resume_total (fetched : Promise Response) (st : State) :
  outcome (analyze_resume fetched st) = Normal tt.
Proof.
  unfold analyze_resume. rewrite finally_write_outcome. apply catch_write_outcome.
Qed.

Lemma analyze_resume_busy (fetched : Promise Response) (st : State) :
  isLoading (final (analyze_resume fetched st)) = false.
Proof. unfold analyze_resume. now rewrite finally_write_final. Qed.

(** *** A body that passes the clean-up *)

Lemma bind_read {A B} (field : State -> A) (k : A -> M B) (st : State) :
  bind (read field) k st = k (field st) st.
Proof. unfold bind, read. now destruct (k (field st) st). Qed.

Lemma clean_data_run (t : jsstring) (ref : nat) (st : State) :
  clean_data t ref st =
    match data_at ref (result st) with
    | Some data =>
        match cleaned_keywords data with
        | Some kws => write (assign_keywords ref kws) st
        | None => throw t st
        end
    | None => ret tt st
    end.
Proof.
  unfold clean_data. rewrite bind_read.
  destruct (data_at ref (result st)) as [data|]; [|reflexivity].
  now destruct (cleaned_keywords data).
Qed.

Lemma if_truthy_some (x : option (option Json)) (v : Json) :
  if_truthy x = Some v -> x = Some (Some v) /\ truthy_json (Some v) = true.
Proof.
  destruct x as [[j|]|]; cbn -[truthy_json]; try discriminate.
  destruct (truthy_json (Some j)) eqn:T; [|discriminate].
  intros E. injection E as <-. now split.
Qed.

Lemma get_map_named {V} (name : jsstring) (g : V -> V) (d : Dict V) :
  get (List.map (fun kv => if Js.eqb (fst kv) name
                           then (fst kv, g (snd kv))
                           else kv) d) name
  = option_map g (get d name).
Proof.
  induction d as [|[k x] d IH]; [reflexivity|].
  cbn [List.map fst snd get].
  destruct (Js.eqb k name) eqn:E; cbn [get fst snd]; rewrite E; [reflexivity | exact IH].
Qed.

Lemma insights_of_update (g : Json -> Json) (j v : Json) :
  if_truthy (insights_of (Some j)) = Some v ->
  truthy_json (Some (g v)) = true ->
  if_truthy (insights_of (Some (update_insights g j))) = Some (g v).
Proof.
  intros H T. apply if_truthy_some in H as [H _].
  unfold insights_of, member in *.
  destruct j as [b|n|neg|s|items|ms]; try discriminate H.
  cbn [update_insights]. rewrite (get_map_named (js "insights") (option_map g) ms), H.
  cbn [option_map]. unfold if_truthy. now rewrite T.
Qed.

Lemma truthy_update_entry (i : nat) (f : option Json -> option Json) (v : Json) :
  truthy_json (Some (update_entry i f v)) = truthy_json (Some v).
Proof. now destruct v. Qed.

Lemma values_combine {V} (names : list jsstring) (l : list V) :
  List.length names = List.length l -> values (combine names l) = l.
Proof.
  unfold values. revert l. induction names as [|n names IH]; intros [|x l] H;
    try discriminate H; [reflexivity|].
  cbn. f_equal. apply IH. now injection H.
Qed.

Lemma update_item_length {A} (i : nat) (f : A -> A) (l : list A) :
  List.length (update_item i f l) = List.length l.
Proof. revert i. induction l as [|x l IH]; intros [|i]; cbn; auto. Qed.

Lemma update_item_other {A} (i k : nat) (f : A -> A) (l : list A) :
  k <> i -> nth_error (update_item i f l) k = nth_error l k.
Proof.
  revert i k. induction l as [|x l IH]; intros [|i] [|k] H; cbn; auto;
    solve [now elim H | apply IH; now intros ->].
Qed.

Lemma update_at_other {V} (i k : nat) (f : V -> V) (d : Dict V) :
  k <> i -> nth_error (values (update_at i f d)) k = nth_error (values d) k.
Proof.
  unfold values. revert i k.
  induction d as [|[key x] d IH]; intros [|i] [|k] H; cbn; auto;
    solve [now elim H | apply IH; now intros ->].
Qed.

Lemma values_update_entry (i k : nat) (f : option Json -> option Json) (v : Json) :
  k <> i ->
  nth_error (values (entries (update_entry i f v))) k = nth_error (values (entries v)) k.
Proof.
  intros H. destruct v as [b|n|neg|s|items|ms]; try reflexivity.
  - cbn [update_entry entries].
    rewrite !values_combine
      by (now rewrite length_map, length_seq, ?update_item_length).
    now apply update_item_other.
  - cbn [update_entry entries]. now apply update_at_other.
Qed.

Lemma loop_passes (t : jsstring) (v0 : Json) :
  (forall k data, nth_error (values (entries v0)) k = Some data ->
                  cleaned_keywords data <> None) ->
  forall n a s v,
    if_truthy (insights_of (result s)) = Some v ->
    (forall k, a <= k ->
               nth_error (values (entries v)) k = nth_error (values (entries v0)) k) ->
    outcome (forEach (seq a n) (fun data => clean_data t data) s) = Normal tt.
Proof.
  intros W. induction n as [|n IH]; intros a s v H K; [reflexivity|].
  cbn [seq forEach]. rewrite outcome_bind, clean_data_run.
  unfold data_at. rewrite H, (K a (Nat.le_refl a)).
  destruct (nth_error (values (entries v0)) a) as [data|] eqn:N.
  - pose proof (W a data N) as C.
    destruct (cleaned_keywords data) as [kws|]; [|now elim C].
    cbn [write outcome final].
    destruct (result s) as [j|] eqn:R; [|discriminate H].
    apply (IH (S a) _ (update_entry a (with_keywords kws) v)).
    + unfold assign_keywords. cbn [result set_result]. rewrite R. cbn [option_map].
      apply insights_of_update; [exact H|].
      rewrite truthy_update_entry. now apply if_truthy_some in H.
    + intros k L. rewrite values_update_entry by lia. apply K. lia.
  - cbn [ret outcome final]. apply (IH (S a) s v H). intros k L. apply K. lia.
Qed.

Lemma keep_result_passes (body : option Json) (t : jsstring) (st : State) :
  keywords_well_formed body = true ->
  outcome (keep_result body t st) = Normal tt.
Proof.
  intros W. unfold keep_result.
  rewrite outcome_bind. cbn [write outcome final].
  rewrite bind_read. cbn [result set_result].
  rewrite outcome_bind.
  assert (L : outcome (match if_truthy (insights_of body) with
                       | Some v => forEach (value_refs (entries v))
                                           (fun data => clean_data t data)
                       | None => ret tt
                       end (set_result body st)) = Normal tt).
  { unfold keywords_well_formed in W.
    destruct (if_truthy (insights_of body)) as [v|] eqn:I; [|reflexivity].
    apply (loop_passes t v) with (v := v); [|exact I|auto].
    intros k data N C. apply nth_error_In in N.
    rewrite forallb_forall in W. specialize (W data N). now rewrite C in W. }
  rewrite L. rewrite bind_read. reflexivity.
Qed.

Lemma keep_result_error (body : option Json) (t : jsstring) :
  stable error (keep_result body t).
Proof. unfold keep_result. stable_auto. Qed.

Lemma analyze_resume_kept (body : option Json) (t : jsstring) (st : State) :
  outcome (keep_result body t st) = Normal tt ->
  analyze_resume (Resolves (Ok (Resolves body) t)) st =
    {| outcome := Normal tt;
       final := set_isLoading false (final (keep_result body t st));
       trace := trace (keep_result body t st)
                ++ [set_isLoading false (final (keep_result body t st))] |}.
Proof.
  intros O. unfold analyze_resume, try_finally, try_catch, bind, await, ret, write.
  destruct (keep_result body t st) as [o s1 t1]. cbn in O. subst o. reflexivity.
Qed.

(** ** The result store *)

Lemma exclusive_no_error (s : State) : error s = js "" -> exclusive s.
Proof. intros E. split; intros H; [now rewrite E in H | exact E]. Qed.

Lemma exclusive_no_result (s : State) : result s = None -> exclusive s.
Proof. intros E. split; intros H; [exact E | now rewrite E in H]. Qed.

Lemma exclusive_store (s s' : State) :
  store_part s = store_part s' -> exclusive s' -> exclusive s.
Proof.
  unfold store_part, exclusive. intros E. injection E as -> ->. auto.
Qed.



Lemma analyze_resume_exclusive (fetched : Promise Response) (st : State) :
  passes_cleanup fetched ->
  result st = None -> error st = js "" ->
  Forall exclusive (trace (analyze_resume fetched st)) /\
  exclusive (final (analyze_resume fetched st)).
Proof.
  intros P R E.
  assert (F : forall shown : Json,
             Forall exclusive [set_error shown st;
                               set_isLoading false (set_error shown st)] /\
             exclusive (set_isLoading false (set_error shown st))).
  { intros shown. split; [repeat (apply Forall_cons || apply Forall_nil)|];
      apply exclusive_no_result; exact R. }
  destruct fetched as [m | [ [m | [body|]] t | [m | body] t ]];
    try (erewrite analyze_resume_failure by reflexivity; apply F).
  (* a body to keep *)
  pose proof (keep_result_passes body t st (P body t eq_refl)) as O.
  destruct (keep_result_error body t st) as [EF ET].
  rewrite (analyze_resume_kept body t st O). cbn [trace final].
  assert (X : exclusive (set_isLoading false (final (keep_result body t st)))).
  { apply exclusive_no_error. cbn [error set_isLoading]. now rewrite EF. }
  split; [|exact X].
  apply Forall_app; split; [|constructor; [exact X | constructor]].
  eapply Forall_impl; [|exact ET].
  intros s Es. apply exclusive_no_error. now rewrite Es.
Qed.




(** ** A submission, end to end *)

Lemma analyze_begin_sends (st : State) :
  reviews_of (reviewsText st) <> [] ->
  let s1 := set_error (js "") st in
  let s2 := set_result None s1 in
  let s3 := set_isLoading true s2 in
  analyze_begin st =
    {| outcome := Normal (Some {| url := js "http://localhost:5000/analyze";
                                  method := js "POST";
                                  reviews := reviews_of (reviewsText st) |});
       final := s3;
       trace := [s1; s2; s3] |}.
Proof.
  intros H. unfold analyze_begin, bind, write, read, ret. cbn -[js reviews_of].
  destruct (reviews_of (reviewsText st)); [contradiction | reflexivity].
Qed.

Lemma dispatch_final {E} (h : E -> M unit) (e : E) (st : State) :
  final (dispatch h e st) = final (h e st).
Proof.
  unfold dispatch, try_catch. now destruct (h e st) as [[[]|message] s1 t1].
Qed.

Lemma run_final_cons {E} (h : E -> M unit) (e : E) (events : list E) (st : State) :
  final (run h (e :: events) st) = final (run h events (final (h e st))).
Proof.
  cbn [run]. now rewrite final_bind, dispatch_total, dispatch_final.
Qed.

Lemma submission_final (st : State) (during after : list UIEvent)
                       (fetched : Promise Response) :
  reviews_of (reviewsText st) <> [] ->
  final (submission during fetched after st) =
    final (run handle_ui after
             (final (analyze_resume fetched
                       (final (run handle_ui during
                                 (set_isLoading true
                                    (set_result None (set_error (js "") st)))))))).
Proof.
  intros H. unfold submission.
  rewrite final_bind, (analyze_begin_sends st H). cbn [outcome final].
  rewrite final_bind, outcome_bind, run_total, analyze_resume_total.
  now rewrite final_bind, run_total.
Qed.

(** While no result is stored, nothing in the view reaches the chart
    library. *)
Lemma handle_ui_idle (e : UIEvent) (st : State) :
  result st = None ->
  chart_part (final (handle_ui e st)) = chart_part st /\
  result (final (handle_ui e st)) = None.
Proof.
  intros R. split.
  - destruct e; try reflexivity.
    + apply repair_effect_chart.
    + unfold handle_ui, renderChart. rewrite !bind_read. now rewrite R.
  - destruct (handle_ui_store e st) as [E _].
    change (fst (store_part (final (handle_ui e st))) = None).
    now rewrite E.
Qed.

Lemma run_ui_idle (events : list UIEvent) (st : State) :
  result st = None ->
  chart_part (final (run handle_ui events st)) = chart_part st /\
  result (final (run handle_ui events st)) = None.
Proof.
  revert st. induction events as [|e events IH]; intros st R; [now split|].
  rewrite run_final_cons.
  destruct (handle_ui_idle e st R) as [C R'].
  destruct (IH _ R') as [C' R'']. split; congruence.
Qed.

Lemma handle_ui_busy (e : UIEvent) : stable isLoading (handle_ui e).
Proof. destruct e; unfold handle_ui, repair_effect, renderChart; stable_auto. Qed.

(** C8 (as the code has it). After a response that is not [ok] whose body
    parses, the value shown is the [error] member of the body, as it is,
    when that member is truthy -- a non-empty string, but also a number
    other than zero, [true], an array or an object -- and "Something went
    wrong." when the body has no such member or a falsy one.  When the
    body cannot be parsed, or is [null], it is the message of the
    exception, or "Request failed." if that is empty.  In every case no
    result is stored, the busy flag is cleared, and no chart call is
    made. *)
Theorem service_rejection_shown
    (st : State) (during after : list UIEvent)
    (json : Promise (option Json)) (type_error : jsstring) :
  reviews_of (reviewsText st) <> [] ->
  let st' := final (submission during (Resolves (NotOk json type_error)) after st) in
  error st' =
    match json with
    | Resolves (Some body) =>
        match member (js "error") body with
        | Some (Some e) =>
            if truthy_json (Some e) then e else js "Something went wrong."
        | _ => js "Something went wrong."
        end
    | Resolves None => or_else type_error (js "Request failed.")
    | Rejects m => or_else m (js "Request failed.")
    end /\
  result st' = None /\
  isLoading st' = false /\
  chart_effect_schedules st' = false /\
  chartCalls st' = chartCalls st.
Proof.
  intros H st'. subst st'. rewrite (submission_final st during after _ H).
  set (s0 := set_isLoading true (set_result None (set_error (js "") st))).
  destruct (run_ui_idle during s0 eq_refl) as [C1 R1].
  set (s1 := final (run handle_ui during s0)) in *.
  set (shown := match json with
                | Resolves (Some body) =>
                    match member (js "error") body with
                    | Some (Some e) =>
                        if truthy_json (Some e) then e
                        else JString (js "Something went wrong.")
                    | _ => JString (js "Something went wrong.")
                    end
                | Resolves None => JString (or_else type_error (js "Request failed."))
                | Rejects m => JString (or_else m (js "Request failed."))
                end).
  rewrite (analyze_resume_failure (Resolves (NotOk json type_error)) s1 shown).
  2:{ subst shown. destruct json as [m | [body|]]; try reflexivity.
      unfold or_json, if_truthy.
      destruct (member (js "error") body) as [[e|]|]; try reflexivity.
      now destruct (truthy_json (Some e)). }
  cbn [final].
  set (s2 := set_isLoading false (set_error shown s1)).
  assert (R2 : result s2 = None) by exact R1.
  destruct (run_ui_idle after s2 R2) as [C3 R3].
  destruct (stable_run store_part handle_ui after handle_ui_store s2) as [S3 _].
  destruct (stable_run isLoading handle_ui after handle_ui_busy s2) as [B3 _].
  set (s3 := final (run handle_ui after s2)) in *.
  repeat split.
  - change (snd (store_part s3) = shown). now rewrite S3.
  - exact R3.
  - exact B3.
  - unfold chart_effect_schedules. now rewrite R3.
  - change (snd (chart_part s3) = snd (chart_part st)).
    rewrite C3. change (snd (chart_part s1) = snd (chart_part s0)). now rewrite C1.
Qed.

Lemma service_rejection_shown_witness :
  let st := set_reviewsText (js "slow delivery") initial in
  let body := JObject [(js "error", Some (JString (js "model unavailable")))] in
  let st' := final (submission [] (Resolves (NotOk (Resolves (Some body)) (js "TypeError")))
                               [RepairEffect; RenderChart] st) in
  reviews_of (reviewsText st) <> [] /\
  error st' = js "model unavailable" /\
  result st' = None /\
  isLoading st' = false /\
  chart_effect_schedules st' = false /\
  chartCalls st' = chartCalls st.
Proof.
  intros st body.
  assert (H : reviews_of (reviewsText st) <> []) by (vm_compute; discriminate).
  split; [exact H|].
  exact (service_rejection_shown st [] [RepairEffect; RenderChart]
           (Resolves (Some body)) (js "TypeError") H).
Defined.

(** C8 as stated fails: a body that cannot be parsed shows the parser's
    message, which is neither a message of the body nor a generic one. *)
Lemma service_rejection_unparsable :
  let shown :=
    error (final (submission []
                    (Resolves (NotOk (Rejects (js "Unexpected token < in JSON at position 0"))
                                     (js "TypeError")))
                    [] (set_reviewsText (js "slow delivery") initial))) in
  shown = js "Unexpected token < in JSON at position 0" /\
  ~ shows_service_message (Rejects (js "Unexpected token < in JSON at position 0")) shown.
Proof.
  split; [reflexivity|].
  intros [H|H]; vm_compute in H; discriminate H.
Qed.

(** ** Selection after a new result *)


Lemma repair_effect_final (st : State) :
  final (repair_effect st) =
    match if_result (result st), or_undefined (selectedAspect st) with
    | Some res, None =>
        match member (js "insights") res with
        | Some (Some v) =>
            set_selectedAspect (or_undefined (first_aspect v)) st
        | _ => st
        end
    | _, _ => st
    end.
Proof.
  unfold repair_effect. rewrite !bind_read.
  destruct (if_result (result st)) as [res|]; [|reflexivity].
  destruct (or_undefined (selectedAspect st)); [reflexivity|].
  unfold Object_keys. now destruct (member (js "insights") res) as [[v|]|].
Qed.




(** ** What normalization leaves untouched *)







(** ** Rendering *)


Lemma created_app (a b : list ChartCall) : created (a ++ b) = created a + created b.
Proof. unfold created. now rewrite filter_app, length_app. Qed.

(** [renderChart] in closed form. *)
Lemma renderChart_run (st : State) :
  renderChart st =
    match if_result (result st), canvas st, or_undefined (selectedAspect st) with
    | Some res, Some surface, Some aspect =>
        match sentiment_at res aspect with
        | None => {| outcome := Throw (js "TypeError"); final := st; trace := [] |}
        | Some sentimentData =>
            let released :=
              match chartInstance st with
              | Some c => call_chart (Destroy c) st
              | None => st
              end in
            let id := created (chartCalls st) in
            let config := chart_config aspect (selectedChartType st) sentimentData in
            let drawn := call_chart (NewChart id surface config) released in
            {| outcome := Normal tt;
               final := set_chartInstance (Some id) drawn;
               trace := match chartInstance st with
                        | Some _ => [released]
                        | None => []
                        end ++ [drawn; set_chartInstance (Some id) drawn] |}
        end
    | _, _, _ => {| outcome := Normal tt; final := st; trace := [] |}
    end.
Proof.
  unfold renderChart. rewrite !bind_read.
  destruct (if_result (result st)) as [res|]; [|reflexivity].
  destruct (canvas st) as [surface|]; [|reflexivity].
  destruct (or_undefined (selectedAspect st)) as [aspect|]; [|reflexivity].
  destruct (sentiment_at res aspect) as [sentimentData|]; [|reflexivity].
  unfold bind, read, write, ret. cbn -[chart_config created].
  destruct (chartInstance st) as [held|] eqn:I; cbn -[chart_config created].
  - rewrite created_app. change (created [Destroy held]) with 0.
    rewrite Nat.add_0_r. reflexivity.
  - reflexivity.
Qed.




(** ** The chart lifecycle *)

Lemma live_after_app (acc : list ChartId) (a b : list ChartCall) :
  live_after acc (a ++ b) = live_after (live_after acc a) b.
Proof.
  revert acc. induction a as [|[id sf cfg|id] a IH]; intros acc; cbn; auto.
Qed.

Lemma live_app (a b : list ChartCall) : live (a ++ b) = live_after (live a) b.
Proof. apply live_after_app. Qed.

Lemma lifecycle_held (calls : list ChartCall) (held : option ChartId) :
  lifecycle calls held ->
  live calls = match held with Some c => [c] | None => [] end.
Proof.
  induction 1 as [|sf cfg|calls held sf cfg _ IH]; try reflexivity.
  rewrite live_app, IH. cbn. now rewrite Nat.eqb_refl.
Qed.

Lemma lifecycle_split (calls : list ChartCall) (held : option ChartId) :
  lifecycle calls held ->
  forall pre post,
    calls = pre ++ post ->
    List.length (live pre) <= 1 /\
    match post with
    | NewChart _ _ _ :: _ =>
        pre = [] \/ exists pre' c, pre = pre' ++ [Destroy c] /\ live pre' = [c]
    | _ => True
    end.
Proof.
  induction 1 as [|sf cfg|calls held sf cfg L IH]; intros pre post E.
  - symmetry in E. apply app_eq_nil in E as [-> ->]. cbn. auto.
  - destruct pre as [|x pre].
    + cbn in E. subst post. cbn. auto.
    + injection E as <- E. symmetry in E. apply app_eq_nil in E as [-> ->].
      cbn. auto.
  - symmetry in E. apply app_eq_app in E as [l [[-> E]|[-> ->]]].
    + pose proof (lifecycle_held _ _ L) as H. cbn in H.
      destruct l as [|x [|y [|z l]]]; cbn in E.
      * subst post. rewrite app_nil_r, H. cbn. auto.
      * injection E as <- <-. rewrite live_app, H. cbn.
        rewrite Nat.eqb_refl. cbn. split; [lia|].
        right. exists calls, held. auto.
      * injection E as <- <- <-. rewrite live_app, H. cbn.
        rewrite Nat.eqb_refl. cbn. auto.
      * discriminate E.
    + destruct (IH pre l eq_refl) as [P Q]. split; [exact P|].
      destruct l as [|x l]; [cbn; auto | exact Q].
Qed.

Lemma renderChart_calls (st : State) :
  chart_part (final (renderChart st)) = chart_part st \/
  exists surface config,
    chartCalls (final (renderChart st)) =
      match chartInstance st with
      | Some c => chartCalls st ++ [Destroy c]
      | None => chartCalls st
      end ++ [NewChart (created (chartCalls st)) surface config] /\
    chartInstance (final (renderChart st)) = Some (created (chartCalls st)).
Proof.
  rewrite renderChart_run.
  destruct (if_result (result st)) as [res|]; [|now left].
  destruct (canvas st) as [surface|]; [|now left].
  destruct (or_undefined (selectedAspect st)) as [aspect|]; [|now left].
  destruct (sentiment_at res aspect) as [sentimentData|]; [|now left].
  right. eexists _, _. cbn -[chart_config created].
  destruct (chartInstance st) as [held|]; split; reflexivity.
Qed.

Lemma renderChart_lifecycle (st : State) :
  lifecycle (chartCalls st) (chartInstance st) ->
  lifecycle (chartCalls (final (renderChart st)))
            (chartInstance (final (renderChart st))).
Proof.
  intros L. destruct (renderChart_calls st) as [E | (surface & config & C & I)].
  - unfold chart_part in E. injection E as -> ->. exact L.
  - rewrite C, I. destruct (chartInstance st) as [held|].
    + rewrite <- app_assoc. now apply lifecycle_replace.
    + inversion L; subst. apply lifecycle_first.
Qed.

Lemma handle_lifecycle (e : Event) (st : State) :
  lifecycle (chartCalls st) (chartInstance st) ->
  lifecycle (chartCalls (final (handle e st))) (chartInstance (final (handle e st))).
Proof.
  intros L.
  assert (K : forall m : M unit, stable chart_part m ->
              lifecycle (chartCalls (final (m st))) (chartInstance (final (m st)))).
  { intros m S. destruct (S st) as [E _]. unfold chart_part in E.
    injection E as -> ->. exact L. }
  destruct e as [[text|t|aspect|element| |]| |fetched|]; cbn [handle handle_ui].
  - apply K. stable_auto.
  - apply K. stable_auto.
  - apply K. stable_auto.
  - apply K. stable_auto.
  - apply K, repair_effect_chart.
  - now apply renderChart_lifecycle.
  - apply K. apply stable_bind; [apply analyze_begin_chart | intros; apply stable_ret].
  - apply K, analyze_resume_chart.
  - apply K, teardown_chart.
Qed.

Lemma run_lifecycle (events : list Event) (st : State) :
  lifecycle (chartCalls st) (chartInstance st) ->
  lifecycle (chartCalls (final (run handle events st)))
            (chartInstance (final (run handle events st))).
Proof.
  revert st. induction events as [|e events IH]; intros st L; [exact L|].
  rewrite run_final_cons. now apply IH, handle_lifecycle.
Qed.

(** C3. Cut the history of chart calls of any run of the component at any
    point: at most one instance is live there, and if the next call
    constructs a chart then either nothing was constructed before or the
    call just before is the destruction of the one instance that was
    live. *)
Theorem dispose_before_recreate
    (events : list Event) (pre post : list ChartCall) :
  chartCalls (final (run handle events initial)) = pre ++ post ->
  List.length (live pre) <= 1 /\
  match post with
  | NewChart _ _ _ :: _ =>
      pre = [] \/ exists pre' c, pre = pre' ++ [Destroy c] /\ live pre' = [c]
  | _ => True
  end.
Proof.
  apply lifecycle_split with (held := chartInstance (final (run handle events initial))).
  apply run_lifecycle. constructor.
Qed.

Lemma dispose_before_recreate_witness :
  let mapping := [(js "positive", 80%Q); (js "negative", 20%Q)] in
  let entry := {| sentiment := mapping;
                  insight := js "lasts long";
                  common_keywords := [js "battery"] |} in
  let events :=
    [ UI (Input (js "Great battery life"));
      AnalyzeBegin;
      AnalyzeResume (Resolves (Ok (Resolves (Some (shaped {| insights := [(js "battery", entry)] |})))
                                 (js "TypeError")));
      UI (BindCanvas (Some 7));
      UI RenderChart;
      UI (SelectChartType bar);
      UI RenderChart ] in
  let pre := [NewChart 0 7 (chart_config (js "battery") pie (shaped_sentiment mapping));
              Destroy 0] in
  let post := [NewChart 1 7 (chart_config (js "battery") bar (shaped_sentiment mapping))] in
  chartCalls (final (run handle events initial)) = pre ++ post /\
  List.length (live pre) <= 1 /\
  (pre = [] \/ exists pre' c, pre = pre' ++ [Destroy c] /\ live pre' = [c]).
Proof.
  intros mapping entry events pre post.
  split; [reflexivity|].
  apply (dispose_before_recreate events pre post). reflexivity.
Defined.

(** C9 (as the code has it). A chart is destroyed when a newer one
    replaces it: after any run the only live instance is the one the
    controller holds.  Tearing the view down makes no call to the chart
    library and leaves that instance as it is. *)
Theorem replaced_charts_destroyed (events : list Event) :
  held_only (final (run handle events initial)) /\
  chart_part (final (teardown (final (run handle events initial)))) =
    chart_part (final (run handle events initial)).
Proof.
  split.
  - apply lifecycle_held, run_lifecycle. constructor.
  - reflexivity.
Qed.

(** C9 as stated fails: the chart drawn last is still live after the view
    is torn down. *)
Lemma chart_survives_teardown :
  let entry := {| sentiment := [(js "positive", 80%Q); (js "negative", 20%Q)];
                  insight := js "lasts long";
                  common_keywords := [js "battery"] |} in
  let events :=
    [ UI (Input (js "Great battery life"));
      AnalyzeBegin;
      AnalyzeResume (Resolves (Ok (Resolves (Some (shaped {| insights := [(js "battery", entry)] |})))
                                 (js "TypeError")));
      UI (BindCanvas (Some 7));
      UI RenderChart;
      Teardown ] in
  live (chartCalls (final (run handle events initial))) = [0] /\
  live (chartCalls (final (run handle events initial))) <> [].
Proof.
  split; [reflexivity | discriminate].
Qed.

(* ================================================================== *)
(** * Further properties of the script *)

(** ** The review batch *)

Lemma trimStart_head (s : jsstring) :
  match trimStart s with
  | c :: _ => is_white_space c = false
  | [] => True
  end.
Proof.
  induction s as [|c s IH]; cbn [trimStart]; [exact I|].
  destruct (is_white_space c) eqn:W; [exact IH | exact W].
Qed.

Lemma trimStart_fixed (s : jsstring) :
  match s with
  | c :: _ => is_white_space c = false
  | [] => True
  end ->
  trimStart s = s.
Proof. destruct s as [|c s]; cbn; [reflexivity|]. now intros ->. Qed.

Lemma trimStart_suffix (s : jsstring) : exists pre, s = pre ++ trimStart s.
Proof.
  induction s as [|c s [pre IH]]; cbn [trimStart]; [now exists []|].
  destruct (is_white_space c).
  - exists (c :: pre). cbn. now f_equal.
  - now exists [].
Qed.

Lemma blank_app (s t : jsstring) : blank (s ++ t) = blank s && blank t.
Proof. apply forallb_app. Qed.

Lemma blank_rev (s : jsstring) : blank (rev s) = blank s.
Proof.
  induction s as [|c s IH]; [reflexivity|].
  cbn [rev]. rewrite blank_app, IH. cbn. rewrite andb_true_r. apply andb_comm.
Qed.

Lemma trimStart_nil (s : jsstring) : trimStart s = [] -> blank s = true.
Proof.
  induction s as [|c s IH]; cbn; [reflexivity|].
  destruct (is_white_space c); [exact IH | discriminate].
Qed.

Lemma trim_nil (s : jsstring) : Js.trim s = [] -> blank s = true.
Proof.
  unfold Js.trim, trimEnd. intros H.
  assert (H' : trimStart (rev (trimStart s)) = []).
  { rewrite <- (rev_involutive (trimStart (rev (trimStart s)))). now rewrite H. }
  apply trimStart_nil in H'. rewrite blank_rev in H'.
  pose proof (trimStart_head s) as Hd.
  destruct (trimStart s) as [|c t] eqn:T; [now apply trimStart_nil|].
  cbn in H'. now rewrite Hd in H'.
Qed.

Lemma trim_idempotent (s : jsstring) : Js.trim (Js.trim s) = Js.trim s.
Proof.
  unfold Js.trim, trimEnd.
  set (t := trimStart s). set (u := trimStart (rev t)).
  assert (Hu : trimStart u = u) by (apply trimStart_fixed, trimStart_head).
  assert (Hr : trimStart (rev u) = rev u).
  { apply trimStart_fixed.
    destruct (trimStart_suffix (rev t)) as [pre E]. fold u in E.
    apply (f_equal (@rev code_unit)) in E.
    rewrite rev_involutive, rev_app_distr in E.
    pose proof (trimStart_head s) as Hd. fold t in Hd.
    destruct (rev u) as [|c w]; [exact I|].
    rewrite E in Hd. exact Hd. }
  now rewrite Hr, rev_involutive, Hu.
Qed.

Lemma trimStart_incl (s : jsstring) (c : code_unit) :
  In c (trimStart s) -> In c s.
Proof.
  destruct (trimStart_suffix s) as [pre E]. intros H.
  rewrite E. apply in_or_app. now right.
Qed.

Lemma trim_incl (s : jsstring) (c : code_unit) : In c (Js.trim s) -> In c s.
Proof.
  unfold Js.trim, trimEnd. intros H.
  apply in_rev, trimStart_incl in H. apply in_rev in H.
  now apply trimStart_incl.
Qed.

Lemma split_no_separator (sep : code_unit) (s : jsstring) :
  Forall (fun line => ~ In sep line) (Js.split sep s).
Proof.
  induction s as [|c s IH]; cbn [Js.split].
  - constructor; [intros [] | constructor].
  - unfold code_unit_eqb. destruct (N.eqb_spec c sep) as [->|D].
    + constructor; [intros [] | exact IH].
    + destruct (Js.split sep s) as [|line lines].
      * constructor; [|constructor]. intros [H|[]]. now apply D.
      * inversion IH as [|? ? Hl Hls]; subst.
        constructor; [|exact Hls]. intros [H|H]; [now apply D | now apply Hl].
Qed.

Lemma split_blank_lines (sep : code_unit) (s : jsstring) :
  is_white_space sep = true ->
  Forall (fun line => blank line = true) (Js.split sep s) -> blank s = true.
Proof.
  intros W. induction s as [|c s IH]; cbn [Js.split]; [reflexivity|].
  unfold code_unit_eqb. destruct (N.eqb_spec c sep) as [->|D]; intros H.
  - inversion H as [|? ? _ Hls]; subst.
    unfold blank in *. cbn. rewrite W. now apply IH.
  - destruct (Js.split sep s) as [|line lines].
    + inversion H as [|? ? Hl _]; subst.
      unfold blank in *. cbn in *. apply andb_true_iff in Hl as [Hc _].
      rewrite Hc. apply IH. constructor.
    + inversion H as [|? ? Hl Hls]; subst.
      unfold blank in *. cbn in Hl. apply andb_true_iff in Hl as [Hc Hl].
      cbn. rewrite Hc. apply IH. now constructor.
Qed.

Lemma reviews_nil_blank (text : jsstring) :
  reviews_of text = [] -> blank text = true.
Proof.
  unfold reviews_of. intros H.
  apply (split_blank_lines 10%N); [reflexivity|].
  induction (Js.split 10%N text) as [|line lines IH]; [constructor|].
  cbn [List.map filter] in H.
  destruct (Js.trim line) as [|c t] eqn:T; cbn in H; [|discriminate H].
  constructor; [now apply trim_nil | now apply IH].
Qed.

(** X1. [analyze] returns without a request exactly for a blank text;
    for any other text it is suspended on a request that carries the
    reviews, with the busy flag set and both the old result and the old
    error cleared. *)
Theorem analyze_validation (st : State) :
  if blank (reviewsText st) then
    outcome (analyze_begin st) = Normal None
  else
    exists request,
      outcome (analyze_begin st) = Normal (Some request) /\
      reviews request = reviews_of (reviewsText st) /\
      reviews request <> [] /\
      method request = js "POST" /\
      isLoading (final (analyze_begin st)) = true /\
      error (final (analyze_begin st)) = js "" /\
      result (final (analyze_begin st)) = None.
Proof.
  destruct (blank (reviewsText st)) eqn:B.
  - now rewrite (analyze_begin_blank st B).
  - assert (H : reviews_of (reviewsText st) <> []).
    { intros E. apply reviews_nil_blank in E. congruence. }
    rewrite (analyze_begin_sends st H). cbn [outcome final].
    eexists. split; [reflexivity|]. cbn -[reviews_of js].
    repeat split; try reflexivity. exact H.
Qed.

(** X2. Every review put in a request is non-empty, has no white space
    left at either end, and holds no line feed; there are never more
    reviews than lines. *)
Theorem reviews_well_formed (text : jsstring) :
  Forall (fun r => r <> [] /\ Js.trim r = r /\ ~ In 10%N r) (reviews_of text) /\
  List.length (reviews_of text) <= List.length (Js.split 10%N text).
Proof.
  unfold reviews_of. split.
  - pose proof (split_no_separator 10%N text) as S.
    induction S as [|line lines Hl _ IH]; [constructor|].
    cbn [List.map filter].
    destruct (Js.truthy (Js.trim line)) eqn:T; [|exact IH].
    constructor; [|exact IH].
    split; [|split].
    + intros E. now rewrite E in T.
    + apply trim_idempotent.
    + intros H. now apply Hl, trim_incl.
  - etransitivity; [apply filter_length_le|]. now rewrite length_map.
Qed.

(** ** How a submission ends *)

Lemma submission_final_blank (st : State) (during after : list UIEvent)
                             (fetched : Promise Response) :
  blank (reviewsText st) = true ->
  final (submission during fetched after st) =
    final (run handle_ui after (final (analyze_begin st))).
Proof.
  intros B. unfold submission.
  rewrite final_bind, (analyze_begin_blank st B). cbn [outcome final].
  rewrite final_bind. reflexivity.
Qed.

Lemma run_ui_busy (events : list UIEvent) (st : State) :
  isLoading (final (run handle_ui events st)) = isLoading st.
Proof. apply (stable_run isLoading handle_ui events handle_ui_busy st). Qed.

Lemma run_ui_store (events : list UIEvent) (st : State) :
  store_part (final (run handle_ui events st)) = store_part st.
Proof. apply (stable_run store_part handle_ui events handle_ui_store st). Qed.

(** X3. However a submission goes -- rejected input, any answer, any
    failure -- the busy flag is off when it is over; and while a request
    is pending the flag stays on whatever happens in the view. *)
Theorem busy_flag_cleared
    (st : State) (during after : list UIEvent) (fetched : Promise Response) :
  isLoading (final (submission during fetched after st)) = false /\
  if blank (reviewsText st) then True
  else isLoading (final (run handle_ui during (final (analyze_begin st)))) = true.
Proof.
  destruct (blank (reviewsText st)) eqn:B.
  - split; [|exact I].
    rewrite (submission_final_blank st during after fetched B), run_ui_busy.
    now rewrite (analyze_begin_blank st B).
  - assert (H : reviews_of (reviewsText st) <> []).
    { intros E. apply reviews_nil_blank in E. congruence. }
    split.
    + rewrite (submission_final st during after fetched H), run_ui_busy.
      apply analyze_resume_busy.
    + rewrite run_ui_busy. now rewrite (analyze_begin_sends st H).
Qed.

(** A submission whose answer brings no result. *)
Lemma failed_submission
    (st : State) (during after : list UIEvent) (fetched : Promise Response)
    (message : Json) :
  reviews_of (reviewsText st) <> [] ->
  (forall s, final (analyze_resume fetched s) = set_isLoading false (set_error message s)) ->
  let st' := final (submission during fetched after st) in
  error st' = message /\
  result st' = None /\
  isLoading st' = false /\
  chartCalls st' = chartCalls st.
Proof.
  intros H F st'. subst st'. rewrite (submission_final st during after fetched H).
  set (s0 := set_isLoading true (set_result None (set_error (js "") st))).
  destruct (run_ui_idle during s0 eq_refl) as [C1 R1].
  rewrite F.
  set (s1 := final (run handle_ui during s0)) in *.
  set (s2 := set_isLoading false (set_error message s1)).
  destruct (run_ui_idle after s2 R1) as [C3 R3].
  pose proof (run_ui_store after s2) as S3.
  pose proof (run_ui_busy after s2) as B3.
  set (s3 := final (run handle_ui after s2)) in *.
  repeat split.
  - change (snd (store_part s3) = message). now rewrite S3.
  - exact R3.
  - exact B3.
  - change (snd (chart_part s3) = snd (chart_part st)).
    rewrite C3. change (snd (chart_part s1) = snd (chart_part s0)). now rewrite C1.
Qed.

(** X4. When [fetch] itself fails, or an [ok] response has a body that
    cannot be parsed, the message of the exception is shown, or "Request
    failed." when that message is empty; no result is stored, the busy
    flag is cleared and the chart library is not called. *)
Theorem transport_failure_shown
    (st : State) (during after : list UIEvent) (fetched : Promise Response)
    (m : jsstring) :
  reviews_of (reviewsText st) <> [] ->
  fetched = Rejects m \/ (exists t, fetched = Resolves (Ok (Rejects m) t)) ->
  let st' := final (submission during fetched after st) in
  error st' = JString match m with
                      | [] => js "Request failed."
                      | _ :: _ => m
                      end /\
  result st' = None /\
  isLoading st' = false /\
  chartCalls st' = chartCalls st.
Proof.
  intros H F.
  replace (match m with [] => js "Request failed." | _ :: _ => m end)
    with (or_else m (js "Request failed.")) by now destruct m.
  apply failed_submission; [exact H|].
  intros s. destruct F as [-> | [t ->]];
    now erewrite analyze_resume_failure by reflexivity.
Qed.

Lemma transport_failure_shown_witness :
  let st := set_reviewsText (js "slow delivery") initial in
  let st' := final (submission [SelectChartType bar] (Rejects (js "Failed to fetch"))
                               [RepairEffect; RenderChart] st) in
  reviews_of (reviewsText st) = [js "slow delivery"] /\
  error st' = js "Failed to fetch" /\
  result st' = None /\
  isLoading st' = false /\
  chartCalls st' = chartCalls st.
Proof.
  intros st. split; [reflexivity|].
  apply (transport_failure_shown st [SelectChartType bar] [RepairEffect; RenderChart]
           (Rejects (js "Failed to fetch")) (js "Failed to fetch")).
  - vm_compute; discriminate.
  - now left.
Defined.

(** X5. An [ok] response whose body is [null] ends the submission with
    nothing to show: no result, no error message, busy flag off, no chart
    call. *)
Theorem null_body_shows_nothing (st : State) (during after : list UIEvent)
                                (type_error : jsstring) :
  reviews_of (reviewsText st) <> [] ->
  let st' := final (submission during (Resolves (Ok (Resolves None) type_error))
                               after st) in
  result st' = None /\
  error st' = js "" /\
  isLoading st' = false /\
  chartCalls st' = chartCalls st.
Proof.
  intros H st'. subst st'. rewrite (submission_final st during after _ H).
  set (s0 := set_isLoading true (set_result None (set_error (js "") st))).
  destruct (run_ui_idle during s0 eq_refl) as [C1 R1].
  pose proof (run_ui_store during s0) as S1.
  rewrite analyze_resume_null. cbn [final].
  set (s1 := final (run handle_ui during s0)) in *.
  set (s2 := set_isLoading false (set_selectedAspect None (set_result None s1))).
  destruct (run_ui_idle after s2 eq_refl) as [C3 R3].
  pose proof (run_ui_store after s2) as S3.
  pose proof (run_ui_busy after s2) as B3.
  set (s3 := final (run handle_ui after s2)) in *.
  repeat split.
  - exact R3.
  - change (snd (store_part s3) = js ""). rewrite S3.
    change (snd (store_part s1) = js ""). now rewrite S1.
  - exact B3.
  - change (snd (chart_part s3) = snd (chart_part st)).
    rewrite C3. change (snd (chart_part s1) = snd (chart_part s0)). now rewrite C1.
Qed.

Lemma null_body_shows_nothing_witness :
  let st := set_reviewsText (js "slow delivery") initial in
  let st' := final (submission [] (Resolves (Ok (Resolves None) (js "TypeError")))
                               [RepairEffect] st) in
  reviews_of (reviewsText st) = [js "slow delivery"] /\
  result st' = None /\
  error st' = js "" /\
  isLoading st' = false /\
  chartCalls st' = chartCalls st.
Proof.
  intros st. split; [reflexivity|].
  apply (null_body_shows_nothing st [] [RepairEffect] (js "TypeError")).
  vm_compute; discriminate.
Defined.




(** ** The normalizer, further *)

(** X7. A keyword list that is already clean comes back unchanged. *)
Theorem clean_keywords_kept (kws : list jsstring) :
  Forall clean_keyword kws -> normalize_keywords kws = kws.
Proof.
  intros H. rewrite normalize_keywords_unfold. now apply normalize_spec_fixed.
Qed.

Lemma clean_keywords_kept_witness :
  Forall clean_keyword [js "fast"; js "Good"; js "fast"] /\
  normalize_keywords [js "fast"; js "Good"; js "fast"] = [js "fast"; js "Good"; js "fast"].
Proof.
  assert (H : Forall clean_keyword [js "fast"; js "Good"; js "fast"]).
  { repeat constructor; discriminate. }
  split; [exact H|].
  exact (clean_keywords_kept [js "fast"; js "Good"; js "fast"] H).
Defined.

Lemma strip_incl (k : jsstring) (c : code_unit) :
  In c (strip_non_letters k) -> In c k.
Proof. unfold strip_non_letters. intros H. now apply filter_In in H. Qed.

Lemma strip_length (k : jsstring) :
  List.length (strip_non_letters k) <= List.length k.
Proof. apply filter_length_le. Qed.

(** X8. The clean-up only deletes: the list never gets longer, and every
    keyword it returns comes from a keyword of the input by removing code
    units, so it is no longer than that keyword and holds no code unit
    that keyword does not hold. *)
Theorem normalize_only_deletes (kws : list jsstring) :
  List.length (normalize_keywords kws) <= List.length kws /\
  Forall (fun k' => exists k,
            In k kws /\
            List.length k' <= List.length k /\
            forall c, In c k' -> In c k)
         (normalize_keywords kws).
Proof.
  split.
  - unfold normalize_keywords.
    etransitivity; [apply filter_length_le|]. now rewrite length_map.
  - rewrite normalize_keywords_unfold.
    induction kws as [|k kws IH]; cbn [normalize_spec]; [constructor|].
    assert (IH' : Forall (fun k' => exists k0,
                            In k0 (k :: kws) /\
                            List.length k' <= List.length k0 /\
                            forall c, In c k' -> In c k0)
                         (normalize_spec kws)).
    { eapply Forall_impl; [|exact IH].
      intros k' (k0 & I0 & L0 & C0). exists k0. split; [now right | auto]. }
    pose proof (strip_length k) as L. pose proof (strip_incl k) as C.
    destruct (strip_non_letters k) as [|c k']; [exact IH'|].
    constructor; [|exact IH'].
    exists k. split; [now left | split; [exact L | exact C]].
Qed.

(** ** What [analyze] leaves alone *)

(** X9. At no point of its run does [analyze] change the text, the chart
    type, the canvas binding, the chart held, or call the chart library. *)
Theorem analyze_frame (fetched : Promise Response) :
  stable (fun st => (reviewsText st, selectedChartType st, canvas st, chart_part st))
         analyze_begin /\
  stable (fun st => (reviewsText st, selectedChartType st, canvas st, chart_part st))
         (analyze_resume fetched).
Proof.
  split.
  - unfold analyze_begin. stable_auto.
  - unfold analyze_resume, error_of. stable_auto.
Qed.

(** ** [renderChart], further *)

Lemma renderChart_returns (st : State) :
  result st = None \/ canvas st = None \/ or_undefined (selectedAspect st) = None ->
  renderChart st = {| outcome := Normal tt; final := st; trace := [] |}.
Proof.
  intros H. rewrite renderChart_run.
  destruct H as [H|[H|H]]; rewrite H; [reflexivity| |].
  - now destruct (if_result (result st)).
  - destruct (if_result (result st)); [|reflexivity]. now destruct (canvas st).
Qed.

(** X10. Without a result, without a canvas, or without a non-empty
    selection, [renderChart] returns at once: no write, no chart call, the
    chart held stays as it is. *)
Theorem renderChart_skips (st : State) :
  result st = None \/ canvas st = None \/ or_undefined (selectedAspect st) = None ->
  renderChart st = {| outcome := Normal tt; final := st; trace := [] |}.
Proof. exact (renderChart_returns st). Qed.

Lemma renderChart_skips_witness :
  let st := set_selectedAspect (Some (js "")) (set_canvas (Some 3)
              (set_result (Some (shaped {| insights := [(js "", {| sentiment := [];
                                                                    insight := js "";
                                                                    common_keywords := [] |})] |}))
                          initial)) in
  renderChart st = {| outcome := Normal tt; final := st; trace := [] |}.
Proof.
  intros st. apply (renderChart_skips st). right. right. reflexivity.
Defined.








(** ** The repair effect *)

Lemma or_undefined_idempotent (a : option jsstring) :
  or_undefined (or_undefined a) = or_undefined a.
Proof. now destruct a as [[|c s]|]. Qed.

Lemma repair_effect_cases (st : State) :
  final (repair_effect st) = st \/
  exists doc v,
    if_result (result st) = Some doc /\
    or_undefined (selectedAspect st) = None /\
    member (js "insights") doc = Some (Some v) /\
    final (repair_effect st) = set_selectedAspect (or_undefined (first_aspect v)) st.
Proof.
  rewrite repair_effect_final.
  destruct (if_result (result st)) as [doc|]; [|now left].
  destruct (or_undefined (selectedAspect st)); [now left|].
  destruct (member (js "insights") doc) as [[v|]|] eqn:I; [|now left ..].
  right. exists doc, v. repeat split; first [exact I | reflexivity].
Qed.

(** X14. The repair effect writes nothing but the selection, never
    replaces a selection that is a non-empty string, and running it a
    second time changes nothing. *)
Theorem repair_effect_idempotent (st : State) :
  final (repair_effect (final (repair_effect st))) = final (repair_effect st) /\
  final (repair_effect st) =
    set_selectedAspect (selectedAspect (final (repair_effect st))) st /\
  match selectedAspect st with
  | Some (_ :: _) => final (repair_effect st) = st
  | _ => True
  end.
Proof.
  destruct (repair_effect_cases st) as [E | (doc & v & D & O & I & E)].
  - rewrite !E. split; [reflexivity|]. split; [now destruct st|].
    now destruct (selectedAspect st) as [[|c s]|].
  - rewrite E. split; [|split].
    + rewrite repair_effect_final.
      destruct st as [text res err busy kind sel cv inst calls].
      cbn [result selectedAspect set_selectedAspect] in *.
      rewrite D, or_undefined_idempotent.
      destruct (or_undefined (first_aspect v)) eqn:X; [reflexivity|].
      now rewrite I, X.
    + now destruct st.
    + destruct (selectedAspect st) as [[|c s]|]; try exact I0; try exact Logic.I.
      discriminate O.
Qed.

(** ** The page under any use *)









Lemma renderChart_view :
  stable (fun st => (result st, error st, isLoading st, selectedAspect st)) renderChart.
Proof. unfold renderChart. stable_auto. Qed.

Lemma repair_effect_view :
  stable (fun st => (result st, error st, isLoading st)) repair_effect.
Proof. unfold repair_effect. stable_auto. Qed.

Lemma page_ok_view (p : Page) (st : State) :
  (result st, error st, isLoading st) =
    (result (view p), error (view p), isLoading (view p)) ->
  page_ok p -> page_ok {| view := st; inflight := inflight p |}.
Proof.
  intros E [S B P]. injection E as ER EE EB.
  constructor; cbn [view inflight].
  - exact S.
  - now rewrite EB.
  - now rewrite EB, ER, EE.
Qed.

Lemma analyze_begin_view (st : State) :
  result (final (analyze_begin st)) = None /\
  if blank (reviewsText st)
  then outcome (analyze_begin st) = Normal None /\
       isLoading (final (analyze_begin st)) = false
  else (exists request, outcome (analyze_begin st) = Normal (Some request)) /\
       isLoading (final (analyze_begin st)) = true /\
       error (final (analyze_begin st)) = js "".
Proof.
  destruct (blank (reviewsText st)) eqn:T.
  - rewrite (analyze_begin_blank _ T). cbn. auto.
  - assert (H : reviews_of (reviewsText st) <> []).
    { intros N. apply reviews_nil_blank in N. congruence. }
    rewrite (analyze_begin_sends _ H). cbn -[reviews_of js].
    split; [reflexivity|]. split; [eexists; reflexivity | split; reflexivity].
Qed.

Lemma act_ok (a : Action) (p : Page) : page_ok p -> page_ok (act a p).
Proof.
  intros O. pose proof O as [S B P].
  destruct a as [text| |i fetched|t|i|element| |]; cbn [act].
  - (* typing *)
    destruct (isLoading (view p)); [exact O|]. now apply page_ok_view.
  - (* the button *)
    destruct (isLoading (view p)) eqn:L; [exact O|].
    assert (E : inflight p = []).
    { destruct (inflight p) as [|x l]; [reflexivity|].
      assert (N : x :: l <> []) by discriminate. apply B in N. discriminate N. }
    rewrite E. destruct (analyze_begin_view (view p)) as [R V].
    destruct (blank (reviewsText (view p))).
    + destruct V as [-> L']. constructor; cbn [view inflight].
      * cbn; lia.
      * rewrite L'. split; [now intros [] | discriminate].
      * rewrite L'. discriminate.
    + destruct V as ([request ->] & L' & E'). constructor; cbn [view inflight app].
      * cbn; lia.
      * rewrite L'. split; [reflexivity | discriminate].
      * intros _. now split.
  - (* an answer *)
    destruct (nth_error (inflight p) i) as [request|] eqn:N; [|exact O].
    assert (I : remove_nth i (inflight p) = []).
    { destruct (inflight p) as [|x [|y l]]; [now destruct i| |cbn in S; lia].
      destruct i as [|[|i]]; [reflexivity|discriminate N|discriminate N]. }
    rewrite I.
    pose proof (analyze_resume_busy fetched (view p)) as L.
    constructor; cbn [view inflight].
    + cbn; lia.
    + rewrite L. split; [now intros [] | discriminate].
    + rewrite L. discriminate.
  - (* a chart type *)
    destruct (if_result (result (view p))); [|exact O]. now apply page_ok_view.
  - (* an aspect *)
    destruct (nth_error (aspect_items (result (view p))) i); [|exact O].
    now apply page_ok_view.
  - (* the canvas *)
    now apply page_ok_view.
  - (* the repair effect *)
    apply page_ok_view; [|exact O]. apply repair_effect_view.
  - (* a render *)
    apply page_ok_view; [|exact O].
    pose proof (proj1 (renderChart_view (view p))) as E.
    now injection E as -> -> ->.
Qed.

Lemma perform_cons (a : Action) (actions : list Action) (p : Page) :
  perform (a :: actions) p = perform actions (act a p).
Proof. reflexivity. Qed.

Lemma perform_ok (actions : list Action) (p : Page) :
  page_ok p -> page_ok (perform actions p).
Proof.
  revert p. induction actions as [|a actions IH]; intros p O; [exact O|].
  rewrite perform_cons. now apply IH, act_ok.
Qed.

Lemma start_ok : page_ok start.
Proof.
  constructor; cbn.
  - lia.
  - split; [now intros [] | discriminate].
  - discriminate.
Qed.

Lemma in_flight_pending (p : Page) (i : nat) (request : Request) :
  page_ok p -> nth_error (inflight p) i = Some request ->
  result (view p) = None /\ error (view p) = js "".
Proof.
  intros O N. apply (ok_pending p O), (ok_busy p O).
  intros Z. rewrite Z in N. now destruct i.
Qed.

Lemma act_exclusive (a : Action) (p : Page) :
  answers passes_cleanup a -> page_ok p ->
  exclusive (view p) -> exclusive (view (act a p)).
Proof.
  intros A O X.
  assert (K : forall m : M unit, stable store_part m -> exclusive (final (m (view p)))).
  { intros m Sm. eapply exclusive_store; [apply Sm | exact X]. }
  destruct a as [text| |i fetched|t|i|element| |]; cbn [act].
  - destruct (isLoading (view p)); [exact X|]. apply K. stable_auto.
  - destruct (isLoading (view p)); [exact X|].
    apply exclusive_no_result, analyze_begin_view.
  - destruct (nth_error (inflight p) i) as [request|] eqn:N; [|exact X].
    destruct (in_flight_pending p i request O N) as [R E].
    now apply analyze_resume_exclusive.
  - destruct (if_result (result (view p))); [|exact X]. apply K. stable_auto.
  - destruct (nth_error (aspect_items (result (view p))) i); [|exact X].
    apply K. stable_auto.
  - apply K. stable_auto.
  - apply K, (handle_ui_store RepairEffect).
  - apply K, (handle_ui_store RenderChart).
Qed.


Lemma perform_invariant (Q : State -> Prop) (P : Promise Response -> Prop) :
  (forall a p, answers P a -> page_ok p -> Q (view p) -> Q (view (act a p))) ->
  forall actions p,
    Forall (answers P) actions -> page_ok p -> Q (view p) ->
    Q (view (perform actions p)).
Proof.
  intros Step actions.
  induction actions as [|a actions IH]; intros p F O H; [exact H|].
  inversion F as [|? ? Fa Fs]; subst. rewrite perform_cons.
  apply IH; [exact Fs | now apply act_ok | now apply Step].
Qed.

(** X15. Through the page, requests never overlap: at most one request is
    in flight at any time, and the busy flag is on exactly while one
    is. *)
Theorem requests_never_overlap (actions : list Action) :
  List.length (inflight (perform actions start)) <= 1 /\
  (inflight (perform actions start) <> [] <->
   isLoading (view (perform actions start)) = true).
Proof.
  destruct (perform_ok actions start start_ok) as [S B _]. now split.
Qed.

(** X16. Whatever the user does, as long as every answer of the service
    is a failure or an [ok] body that the clean-up of lines 85-88 gets
    through, the page never shows a result together with an error message;
    and while the busy flag is on it shows neither, whatever the answers
    are. *)
Theorem page_shows_one_thing (actions : list Action) :
  (Forall (answers passes_cleanup) actions ->
   exclusive (view (perform actions start))) /\
  if isLoading (view (perform actions start))
  then result (view (perform actions start)) = None /\
       error (view (perform actions start)) = js ""
  else True.
Proof.
  split.
  - intros F.
    apply (perform_invariant exclusive passes_cleanup act_exclusive actions start F
             start_ok).
    now apply exclusive_no_result.
  - pose proof (ok_pending _ (perform_ok actions start start_ok)) as P.
    destruct (isLoading (view (perform actions start))); [now apply P | exact I].
Qed.

Lemma page_shows_one_thing_witness :
  let entry := {| sentiment := [(js "positive", 80%Q); (js "negative", 20%Q)];
                  insight := js "lasts long";
                  common_keywords := [js "fast!"; js "2-day"] |} in
  let body := shaped {| insights := [(js "battery", entry)] |} in
  let actions :=
    [ TypeReviews (js "Great battery life");
      ClickAnalyze;
      Settle 0 (Resolves (Ok (Resolves (Some body)) (js "TypeError")));
      RunRepairEffect;
      ClickAnalyze;
      Settle 0 (Resolves (NotOk (Resolves (Some (JObject [(js "error", Some (JNumber 42%Q))])))
                                (js "TypeError"))) ] in
  Forall (answers passes_cleanup) actions /\
  exclusive (view (perform actions start)) /\
  error (view (perform actions start)) = JNumber 42%Q.
Proof.
  intros entry body actions.
  assert (F : Forall (answers passes_cleanup) actions).
  { repeat (apply Forall_cons || apply Forall_nil); cbn [answers]; try exact I;
      intros b t E; [injection E as <- _; reflexivity | discriminate E]. }
  split; [exact F|].
  split; [exact (proj1 (page_shows_one_thing actions) F) | reflexivity].
Defined.



(** ** Dark mode *)

Lemma classList_has (token : jsstring) (l : list jsstring) :
  existsb (Js.eqb token) l = true <-> In token l.
Proof.
  rewrite existsb_exists. split.
  - intros (t & I & E). apply js_eqb_eq in E. now subst t.
  - intros I. exists token. split; [exact I | apply js_eqb_refl].
Qed.

(** X18. After the effect has run, the root element carries the class
    [dark] exactly when [darkMode] is set; every other class is kept, and
    no class appears twice if none did. *)
Theorem theme_effect_sync (th : Theme) :
  (In (js "dark") (classList (theme_effect th)) <-> darkMode th = true) /\
  (forall token, token <> js "dark" ->
     (In token (classList (theme_effect th)) <-> In token (classList th))) /\
  (NoDup (classList th) -> NoDup (classList (theme_effect th))) /\
  theme_effect (theme_effect th) = theme_effect th.
Proof.
  unfold theme_effect, classList_add, classList_remove.
  destruct th as [[|] l]; cbn [darkMode classList].
  - destruct (existsb (Js.eqb (js "dark")) l) eqn:E.
    + apply classList_has in E. repeat split; auto.
      cbn -[js]. apply classList_has in E. now rewrite E.
    + assert (N : ~ In (js "dark") l).
      { intros I. apply classList_has in I. congruence. }
      repeat split; auto.
      * intros _. apply in_or_app. right. now left.
      * intros I. apply in_app_or in I as [I|[I|[]]]; [exact I | congruence].
      * intros I. apply in_or_app. now left.
      * intros D. apply NoDup_app; [exact D | repeat constructor; intros [] |].
        intros a Ia [<-|[]]. contradiction.
      * cbn -[js]. assert (E' : existsb (Js.eqb (js "dark")) (l ++ [js "dark"]) = true).
        { apply classList_has, in_or_app. right. now left. }
        now rewrite E'.
  - repeat split.
    + intros I. apply filter_In in I as [_ I]. now rewrite js_eqb_refl in I.
    + discriminate.
    + intros I. now apply filter_In in I.
    + intros I. apply filter_In. split; [exact I|].
      destruct (Js.eqb token (js "dark")) eqn:E; [|reflexivity].
      apply js_eqb_eq in E. contradiction.
    + apply NoDup_filter.
    + cbn -[js]. f_equal.
      induction l as [|t l IH]; [reflexivity|]. cbn -[js].
      destruct (Js.eqb t (js "dark")) eqn:E; cbn -[js]; [exact IH|].
      rewrite E. cbn -[js]. now f_equal.
Qed.
